(** * Orbit camera controller of capital-cove: [Input] and [SceneSetup]

    A shallow embedding of [src/core/SceneSetup.js] (the classes [SceneSetup]
    and [Input]) and the properties of the pointer gesture classifier, the
    interaction resolver and the damped camera rig.

    JavaScript numbers are modelled as exact rationals ([Q]): arithmetic does
    not round, and there is no NaN and no infinity.  [Math.PI] is the rational
    value of the IEEE double the engine uses.  Comparisons of rationals are
    decided, so every handler below evaluates on concrete inputs.

    Doubles round where rationals do not.  The properties below are stated
    so that they do not lean on that: orders and bounds rather than exact
    closed forms, angles within the range in which a double still resolves
    a turn ([angleRange]), and pointers on whole pixels where the threshold
    of a click is met exactly. *)

From Stdlib Require Import ZArith QArith Qminmax Qround Qabs Qpower String List Bool.
From Stdlib Require Import Reals Qreals Psatz.
From stdpp Require Import base option gmap.

Open Scope Q_scope.

(** ** Numbers *)

Module Math.

(** [Math.PI] is the double 0x400921FB54442D18 = 884279719003555 / 2^48. *)
Definition PI : Q := 884279719003555 # 281474976710656.

Definition max (a b : Q) : Q := Qmax a b.
Definition min (a b : Q) : Q := Qmin a b.

(** [Math.pow(a, 2)], the only exponent the controller uses. *)
Definition pow2 (a : Q) : Q := a * a.

(** [Math.sqrt(v) < c].  The square root of a rational need not be
    rational, so the comparison is decided on the squares; [sqrt_lt_real]
    below relates it to the real square root.  A negative radicand gives
    NaN in the source, and every comparison with NaN is false.  The source
    compares the rounded root: for [v] a last bit below [c * c] it can
    round up to [c], which does not happen when [v] is a whole number. *)
Definition sqrt_lt (v c : Q) : bool :=
  Qle_bool 0 v && negb (Qle_bool c 0) && negb (Qle_bool (c * c) v).

End Math.

(** The strict comparisons of the source, as booleans. *)
Definition Qlt_bool (a b : Q) : bool := negb (Qle_bool b a).

(** ** three.js values *)

Module Vector2.
Record t := mk { x : Q; y : Q }.
End Vector2.

Module Vector3.
Record t := mk { x : Q; y : Q; z : Q }.

(** [this.lerp(v, alpha)]: each axis moves by [(v - this) * alpha]. *)
Definition lerp (this v : t) (alpha : Q) : t :=
  {| x := x this + (x v - x this) * alpha;
     y := y this + (y v - y this) * alpha;
     z := z this + (z v - z this) * alpha |}.

(** Component-wise equality of rationals. *)
Definition equiv (a b : t) : Prop := x a == x b /\ y a == y b /\ z a == z b.
End Vector3.

(** ** The scene graph

    three.js objects are shared mutable objects: a node is referred to by its
    address in a heap, and [parent] is a back reference into the same heap,
    which may therefore be cyclic. *)

Definition ref := nat.

Record UserData := { isInteractable : bool }.

Record Object3D := {
  userData : option UserData;
  parent : option ref
}.

(** An entry of the list that [Raycaster.intersectObjects] returns. *)
Record Intersection := {
  distance : Q;
  object : ref
}.

(** The fields of [SceneSetup] that [Input] reads. *)
Record SceneSetup := {
  camera : option ref;
  interactableObjects : list ref
}.

Definition getInteractableObjects (this : SceneSetup) : list ref :=
  interactableObjects this.

(** What surrounds the controller when a handler runs: the heap of scene
    nodes, the [sceneSetup] singleton, the size of the window and the ray
    query of three.js, which is a collaborator and is taken as a function of
    the pointer, the camera and the registered nodes (hits nearest first). *)
Record Host := {
  heap : gmap ref Object3D;
  sceneSetup : SceneSetup;
  innerWidth : Q;
  innerHeight : Q;
  intersectObjects : Vector2.t -> ref -> list ref -> list Intersection
}.

(** ** DOM events *)

Record Event := {
  tagName : string;   (* event.target.tagName *)
  button : Z;
  clientX : Q;
  clientY : Q;
  deltaY : Q
}.

(** ** Observable effects of a handler *)

(** The host's click callback is a function of the host; it is referred to
    by a handle, and calling it is recorded. *)
Definition Callback := nat.

Inductive Effect :=
  | PreventDefault                        (* event.preventDefault() *)
  | Call (f : Callback) (arg : ref)       (* this.onObjectClicked(arg) *)
  | ConsoleLog (v : Vector3.t).           (* console.log(..., v) *)

(** ** The controller state: the fields of [Input]

    [this.raycaster] is left out: [processClick] recomputes its ray from
    [this.mouse] and the camera before every query, so it carries nothing
    from one call to the next. *)

Record Input := {
  mouse : Vector2.t;
  enabled : bool;
  locked : bool;
  lastTime : Q;
  targetRadius : Q;
  currentRadius : Q;
  minRadius : Q;
  maxRadius : Q;
  targetAngle : Q;
  currentAngle : Q;
  targetHeight : Q;
  currentHeight : Q;
  minHeight : Q;
  maxHeight : Q;
  dampingFactor : Q;
  rotateSpeed : Q;
  zoomSpeed : Q;
  panSpeed : Q;
  targetLook : Vector3.t;
  currentLook : Vector3.t;
  isDragging : bool;
  previousMousePosition : Vector2.t;
  dragStartPosition : Vector2.t;
  onObjectClicked : option Callback
}.

(** Assignment to one field. *)

Definition set_mouse (v : Vector2.t) (s : Input) : Input :=
  {| mouse := v; enabled := enabled s; locked := locked s; lastTime := lastTime s;
     targetRadius := targetRadius s; currentRadius := currentRadius s;
     minRadius := minRadius s; maxRadius := maxRadius s;
     targetAngle := targetAngle s; currentAngle := currentAngle s;
     targetHeight := targetHeight s; currentHeight := currentHeight s;
     minHeight := minHeight s; maxHeight := maxHeight s;
     dampingFactor := dampingFactor s; rotateSpeed := rotateSpeed s;
     zoomSpeed := zoomSpeed s; panSpeed := panSpeed s; targetLook := targetLook s;
     currentLook := currentLook s; isDragging := isDragging s;
     previousMousePosition := previousMousePosition s;
     dragStartPosition := dragStartPosition s;
     onObjectClicked := onObjectClicked s |}.

Definition set_enabled (v : bool) (s : Input) : Input :=
  {| mouse := mouse s; enabled := v; locked := locked s; lastTime := lastTime s;
     targetRadius := targetRadius s; currentRadius := currentRadius s;
     minRadius := minRadius s; maxRadius := maxRadius s;
     targetAngle := targetAngle s; currentAngle := currentAngle s;
     targetHeight := targetHeight s; currentHeight := currentHeight s;
     minHeight := minHeight s; maxHeight := maxHeight s;
     dampingFactor := dampingFactor s; rotateSpeed := rotateSpeed s;
     zoomSpeed := zoomSpeed s; panSpeed := panSpeed s; targetLook := targetLook s;
     currentLook := currentLook s; isDragging := isDragging s;
     previousMousePosition := previousMousePosition s;
     dragStartPosition := dragStartPosition s;
     onObjectClicked := onObjectClicked s |}.

Definition set_locked (v : bool) (s : Input) : Input :=
  {| mouse := mouse s; enabled := enabled s; locked := v; lastTime := lastTime s;
     targetRadius := targetRadius s; currentRadius := currentRadius s;
     minRadius := minRadius s; maxRadius := maxRadius s;
     targetAngle := targetAngle s; currentAngle := currentAngle s;
     targetHeight := targetHeight s; currentHeight := currentHeight s;
     minHeight := minHeight s; maxHeight := maxHeight s;
     dampingFactor := dampingFactor s; rotateSpeed := rotateSpeed s;
     zoomSpeed := zoomSpeed s; panSpeed := panSpeed s; targetLook := targetLook s;
     currentLook := currentLook s; isDragging := isDragging s;
     previousMousePosition := previousMousePosition s;
     dragStartPosition := dragStartPosition s;
     onObjectClicked := onObjectClicked s |}.

Definition set_lastTime (v : Q) (s : Input) : Input :=
  {| mouse := mouse s; enabled := enabled s; locked := locked s; lastTime := v;
     targetRadius := targetRadius s; currentRadius := currentRadius s;
     minRadius := minRadius s; maxRadius := maxRadius s;
     targetAngle := targetAngle s; currentAngle := currentAngle s;
     targetHeight := targetHeight s; currentHeight := currentHeight s;
     minHeight := minHeight s; maxHeight := maxHeight s;
     dampingFactor := dampingFactor s; rotateSpeed := rotateSpeed s;
     zoomSpeed := zoomSpeed s; panSpeed := panSpeed s; targetLook := targetLook s;
     currentLook := currentLook s; isDragging := isDragging s;
     previousMousePosition := previousMousePosition s;
     dragStartPosition := dragStartPosition s;
     onObjectClicked := onObjectClicked s |}.

Definition set_targetRadius (v : Q) (s : Input) : Input :=
  {| mouse := mouse s; enabled := enabled s; locked := locked s;
     lastTime := lastTime s; targetRadius := v; currentRadius := currentRadius s;
     minRadius := minRadius s; maxRadius := maxRadius s;
     targetAngle := targetAngle s; currentAngle := currentAngle s;
     targetHeight := targetHeight s; currentHeight := currentHeight s;
     minHeight := minHeight s; maxHeight := maxHeight s;
     dampingFactor := dampingFactor s; rotateSpeed := rotateSpeed s;
     zoomSpeed := zoomSpeed s; panSpeed := panSpeed s; targetLook := targetLook s;
     currentLook := currentLook s; isDragging := isDragging s;
     previousMousePosition := previousMousePosition s;
     dragStartPosition := dragStartPosition s;
     onObjectClicked := onObjectClicked s |}.

Definition set_currentRadius (v : Q) (s : Input) : Input :=
  {| mouse := mouse s; enabled := enabled s; locked := locked s;
     lastTime := lastTime s; targetRadius := targetRadius s; currentRadius := v;
     minRadius := minRadius s; maxRadius := maxRadius s;
     targetAngle := targetAngle s; currentAngle := currentAngle s;
     targetHeight := targetHeight s; currentHeight := currentHeight s;
     minHeight := minHeight s; maxHeight := maxHeight s;
     dampingFactor := dampingFactor s; rotateSpeed := rotateSpeed s;
     zoomSpeed := zoomSpeed s; panSpeed := panSpeed s; targetLook := targetLook s;
     currentLook := currentLook s; isDragging := isDragging s;
     previousMousePosition := previousMousePosition s;
     dragStartPosition := dragStartPosition s;
     onObjectClicked := onObjectClicked s |}.

Definition set_targetAngle (v : Q) (s : Input) : Input :=
  {| mouse := mouse s; enabled := enabled s; locked := locked s;
     lastTime := lastTime s; targetRadius := targetRadius s;
     currentRadius := currentRadius s; minRadius := minRadius s;
     maxRadius := maxRadius s; targetAngle := v; currentAngle := currentAngle s;
     targetHeight := targetHeight s; currentHeight := currentHeight s;
     minHeight := minHeight s; maxHeight := maxHeight s;
     dampingFactor := dampingFactor s; rotateSpeed := rotateSpeed s;
     zoomSpeed := zoomSpeed s; panSpeed := panSpeed s; targetLook := targetLook s;
     currentLook := currentLook s; isDragging := isDragging s;
     previousMousePosition := previousMousePosition s;
     dragStartPosition := dragStartPosition s;
     onObjectClicked := onObjectClicked s |}.

Definition set_currentAngle (v : Q) (s : Input) : Input :=
  {| mouse := mouse s; enabled := enabled s; locked := locked s;
     lastTime := lastTime s; targetRadius := targetRadius s;
     currentRadius := currentRadius s; minRadius := minRadius s;
     maxRadius := maxRadius s; targetAngle := targetAngle s; currentAngle := v;
     targetHeight := targetHeight s; currentHeight := currentHeight s;
     minHeight := minHeight s; maxHeight := maxHeight s;
     dampingFactor := dampingFactor s; rotateSpeed := rotateSpeed s;
     zoomSpeed := zoomSpeed s; panSpeed := panSpeed s; targetLook := targetLook s;
     currentLook := currentLook s; isDragging := isDragging s;
     previousMousePosition := previousMousePosition s;
     dragStartPosition := dragStartPosition s;
     onObjectClicked := onObjectClicked s |}.

Definition set_targetHeight (v : Q) (s : Input) : Input :=
  {| mouse := mouse s; enabled := enabled s; locked := locked s;
     lastTime := lastTime s; targetRadius := targetRadius s;
     currentRadius := currentRadius s; minRadius := minRadius s;
     maxRadius := maxRadius s; targetAngle := targetAngle s;
     currentAngle := currentAngle s; targetHeight := v;
     currentHeight := currentHeight s; minHeight := minHeight s;
     maxHeight := maxHeight s; dampingFactor := dampingFactor s;
     rotateSpeed := rotateSpeed s; zoomSpeed := zoomSpeed s; panSpeed := panSpeed s;
     targetLook := targetLook s; currentLook := currentLook s;
     isDragging := isDragging s; previousMousePosition := previousMousePosition s;
     dragStartPosition := dragStartPosition s;
     onObjectClicked := onObjectClicked s |}.

Definition set_currentHeight (v : Q) (s : Input) : Input :=
  {| mouse := mouse s; enabled := enabled s; locked := locked s;
     lastTime := lastTime s; targetRadius := targetRadius s;
     currentRadius := currentRadius s; minRadius := minRadius s;
     maxRadius := maxRadius s; targetAngle := targetAngle s;
     currentAngle := currentAngle s; targetHeight := targetHeight s;
     currentHeight := v; minHeight := minHeight s; maxHeight := maxHeight s;
     dampingFactor := dampingFactor s; rotateSpeed := rotateSpeed s;
     zoomSpeed := zoomSpeed s; panSpeed := panSpeed s; targetLook := targetLook s;
     currentLook := currentLook s; isDragging := isDragging s;
     previousMousePosition := previousMousePosition s;
     dragStartPosition := dragStartPosition s;
     onObjectClicked := onObjectClicked s |}.

Definition set_targetLook (v : Vector3.t) (s : Input) : Input :=
  {| mouse := mouse s; enabled := enabled s; locked := locked s;
     lastTime := lastTime s; targetRadius := targetRadius s;
     currentRadius := currentRadius s; minRadius := minRadius s;
     maxRadius := maxRadius s; targetAngle := targetAngle s;
     currentAngle := currentAngle s; targetHeight := targetHeight s;
     currentHeight := currentHeight s; minHeight := minHeight s;
     maxHeight := maxHeight s; dampingFactor := dampingFactor s;
     rotateSpeed := rotateSpeed s; zoomSpeed := zoomSpeed s; panSpeed := panSpeed s;
     targetLook := v; currentLook := currentLook s; isDragging := isDragging s;
     previousMousePosition := previousMousePosition s;
     dragStartPosition := dragStartPosition s;
     onObjectClicked := onObjectClicked s |}.

Definition set_currentLook (v : Vector3.t) (s : Input) : Input :=
  {| mouse := mouse s; enabled := enabled s; locked := locked s;
     lastTime := lastTime s; targetRadius := targetRadius s;
     currentRadius := currentRadius s; minRadius := minRadius s;
     maxRadius := maxRadius s; targetAngle := targetAngle s;
     currentAngle := currentAngle s; targetHeight := targetHeight s;
     currentHeight := currentHeight s; minHeight := minHeight s;
     maxHeight := maxHeight s; dampingFactor := dampingFactor s;
     rotateSpeed := rotateSpeed s; zoomSpeed := zoomSpeed s; panSpeed := panSpeed s;
     targetLook := targetLook s; currentLook := v; isDragging := isDragging s;
     previousMousePosition := previousMousePosition s;
     dragStartPosition := dragStartPosition s;
     onObjectClicked := onObjectClicked s |}.

Definition set_isDragging (v : bool) (s : Input) : Input :=
  {| mouse := mouse s; enabled := enabled s; locked := locked s;
     lastTime := lastTime s; targetRadius := targetRadius s;
     currentRadius := currentRadius s; minRadius := minRadius s;
     maxRadius := maxRadius s; targetAngle := targetAngle s;
     currentAngle := currentAngle s; targetHeight := targetHeight s;
     currentHeight := currentHeight s; minHeight := minHeight s;
     maxHeight := maxHeight s; dampingFactor := dampingFactor s;
     rotateSpeed := rotateSpeed s; zoomSpeed := zoomSpeed s; panSpeed := panSpeed s;
     targetLook := targetLook s; currentLook := currentLook s; isDragging := v;
     previousMousePosition := previousMousePosition s;
     dragStartPosition := dragStartPosition s;
     onObjectClicked := onObjectClicked s |}.

Definition set_previousMousePosition (v : Vector2.t) (s : Input) : Input :=
  {| mouse := mouse s; enabled := enabled s; locked := locked s;
     lastTime := lastTime s; targetRadius := targetRadius s;
     currentRadius := currentRadius s; minRadius := minRadius s;
     maxRadius := maxRadius s; targetAngle := targetAngle s;
     currentAngle := currentAngle s; targetHeight := targetHeight s;
     currentHeight := currentHeight s; minHeight := minHeight s;
     maxHeight := maxHeight s; dampingFactor := dampingFactor s;
     rotateSpeed := rotateSpeed s; zoomSpeed := zoomSpeed s; panSpeed := panSpeed s;
     targetLook := targetLook s; currentLook := currentLook s;
     isDragging := isDragging s; previousMousePosition := v;
     dragStartPosition := dragStartPosition s;
     onObjectClicked := onObjectClicked s |}.

Definition set_dragStartPosition (v : Vector2.t) (s : Input) : Input :=
  {| mouse := mouse s; enabled := enabled s; locked := locked s;
     lastTime := lastTime s; targetRadius := targetRadius s;
     currentRadius := currentRadius s; minRadius := minRadius s;
     maxRadius := maxRadius s; targetAngle := targetAngle s;
     currentAngle := currentAngle s; targetHeight := targetHeight s;
     currentHeight := currentHeight s; minHeight := minHeight s;
     maxHeight := maxHeight s; dampingFactor := dampingFactor s;
     rotateSpeed := rotateSpeed s; zoomSpeed := zoomSpeed s; panSpeed := panSpeed s;
     targetLook := targetLook s; currentLook := currentLook s;
     isDragging := isDragging s; previousMousePosition := previousMousePosition s;
     dragStartPosition := v; onObjectClicked := onObjectClicked s |}.

Definition set_onObjectClicked (v : option Callback) (s : Input) : Input :=
  {| mouse := mouse s; enabled := enabled s; locked := locked s;
     lastTime := lastTime s; targetRadius := targetRadius s;
     currentRadius := currentRadius s; minRadius := minRadius s;
     maxRadius := maxRadius s; targetAngle := targetAngle s;
     currentAngle := currentAngle s; targetHeight := targetHeight s;
     currentHeight := currentHeight s; minHeight := minHeight s;
     maxHeight := maxHeight s; dampingFactor := dampingFactor s;
     rotateSpeed := rotateSpeed s; zoomSpeed := zoomSpeed s; panSpeed := panSpeed s;
     targetLook := targetLook s; currentLook := currentLook s;
     isDragging := isDragging s; previousMousePosition := previousMousePosition s;
     dragStartPosition := dragStartPosition s; onObjectClicked := v |}.

(** ** Construction *)

(** [new Input()]; [now] is what [performance.now()] returns. *)
Definition constructor (now : Q) : Input :=
  {| mouse := Vector2.mk 0 0;
     enabled := true;
     locked := false;
     lastTime := now;
     targetRadius := 400;
     currentRadius := 400;
     minRadius := 150;
     maxRadius := 600;
     targetAngle := 78 # 100;
     currentAngle := 78 # 100;
     targetHeight := 220;
     currentHeight := 220;
     minHeight := 50;
     maxHeight := 500;
     dampingFactor := 5;
     rotateSpeed := 4 # 1000;
     zoomSpeed := 5 # 10;
     panSpeed := 5 # 10;
     targetLook := Vector3.mk 0 10 0;
     currentLook := Vector3.mk 0 10 0;
     isDragging := false;
     previousMousePosition := Vector2.mk 0 0;
     dragStartPosition := Vector2.mk 0 0;
     onObjectClicked := None |}.

(** ** The gesture gates and the look target *)

Definition setEnabled (isEnabled : bool) (this : Input) : Input :=
  let this := set_enabled isEnabled this in
  if negb isEnabled then set_isDragging false this else this.

Definition setLocked (isLocked : bool) (this : Input) : Input :=
  let this := set_locked isLocked this in
  set_isDragging false this.

(** [targetLook.copy(vec3)] copies the components. *)
Definition setLookTarget (vec3 : Vector3.t) (this : Input) : Input * list Effect :=
  (set_targetLook vec3 this, [ConsoleLog vec3]).

Definition moveCameraTo (vec3 : option Vector3.t) (this : Input) : Input * list Effect :=
  match vec3 with
  | None => (this, [])
  | Some v => setLookTarget v this
  end.

Definition isEventOnCanvas (event : Event) : bool :=
  String.eqb (tagName event) "CANVAS".

(** ** Pointer handlers *)

Definition onMouseDown (event : Event) (this : Input) : Input :=
  if negb (enabled this) || locked this then this
  else if negb (isEventOnCanvas event) then this
  else if negb (button event =? 0)%Z && negb (button event =? 2)%Z then this
  else
    let this := set_isDragging true this in
    let this := set_previousMousePosition (Vector2.mk (clientX event) (clientY event)) this in
    set_dragStartPosition (Vector2.mk (clientX event) (clientY event)) this.

(** The pointer in normalized device coordinates is stored before the gates
    are looked at.  (A window of width 0 divides by zero; [Q] division then
    gives 0 where the source gives NaN or an infinity.  The targets add up
    exactly here, where the source rounds each sum.) *)
Definition onMouseMove (w : Host) (event : Event) (this : Input) : Input :=
  let this :=
    set_mouse (Vector2.mk ((clientX event / innerWidth w) * 2 - 1)
                          (- (clientY event / innerHeight w) * 2 + 1)) this in
  if negb (enabled this) || negb (isDragging this) || locked this then this
  else
    let deltaMove :=
      Vector2.mk (clientX event - Vector2.x (previousMousePosition this))
                 (clientY event - Vector2.y (previousMousePosition this)) in
    let this := set_targetAngle (targetAngle this + Vector2.x deltaMove * rotateSpeed this) this in
    let this := set_targetHeight (targetHeight this + Vector2.y deltaMove * panSpeed this) this in
    let this :=
      set_targetHeight
        (Math.max (minHeight this) (Math.min (maxHeight this) (targetHeight this))) this in
    set_previousMousePosition (Vector2.mk (clientX event) (clientY event)) this.

(** ** The interaction resolver *)

(** [obj.userData && obj.userData.isInteractable] *)
Definition flagged (o : Object3D) : bool :=
  match userData o with
  | Some d => isInteractable d
  | None => false
  end.

(** The loop [while (obj && depth < 5) { ... obj = obj.parent; depth++ }] of
    [processClick], with [budget = 5 - depth] iterations left.  The result is
    [foundInteractable].  An address that is not in the heap cannot occur in
    the source; the walk ends there as it does at [null]. *)
Fixpoint findInteractable (h : gmap ref Object3D) (budget : nat) (obj : option ref)
  : option ref :=
  match budget, obj with
  | S budget', Some o =>
      match h !! o with
      | Some node =>
          if flagged node then Some o
          else findInteractable h budget' (parent node)
      | None => None
      end
  | _, _ => None
  end.

Definition processClick (w : Host) (this : Input) : Input * list Effect :=
  match camera (sceneSetup w) with
  | None => (this, [])
  | Some cam =>
      let interactables := getInteractableObjects (sceneSetup w) in
      let intersects := intersectObjects w (mouse this) cam interactables in
      match intersects with
      | [] => (this, [])
      | hit :: _ =>
          let foundInteractable := findInteractable (heap w) 5 (Some (object hit)) in
          match foundInteractable, onObjectClicked this with
          | Some found, Some f => (this, [Call f found])
          | _, _ => (this, [])
          end
      end
  end.

(** The squared distance between the pointer and the recorded down position,
    the argument of [Math.sqrt] in [onMouseUp]. *)
Definition dragDistance2 (event : Event) (this : Input) : Q :=
  Math.pow2 (clientX event - Vector2.x (dragStartPosition this)) +
  Math.pow2 (clientY event - Vector2.y (dragStartPosition this)).

Definition onMouseUp (w : Host) (event : Event) (this : Input) : Input * list Effect :=
  if negb (enabled this) then (this, [])
  else if locked this then (set_isDragging false this, [])
  else
    let wasOnCanvas := isEventOnCanvas event in
    let this := set_isDragging false this in
    if negb wasOnCanvas then (this, [])
    else if Math.sqrt_lt (dragDistance2 event this) 5 then processClick w this
    else (this, []).

Definition onWheel (event : Event) (this : Input) : Input * list Effect :=
  if negb (enabled this) || locked this then (this, [])
  else if negb (isEventOnCanvas event) then (this, [])
  else
    let this := set_targetRadius (targetRadius this + deltaY event * zoomSpeed this) this in
    let this :=
      set_targetRadius
        (Math.max (minRadius this) (Math.min (maxRadius this) (targetRadius this))) this in
    (this, [PreventDefault]).

(** ** The per-frame update *)

(** [while (angleDiff > Math.PI) angleDiff -= Math.PI * 2].  [None] when the
    loop has not ended after [fuel] iterations.  Over the rationals enough
    fuel ends it for every difference; in the source a double of about 2^56
    or more is left as it is by the subtraction, and the loop does not end
    (see [angleRange]). *)
Fixpoint whileAbove (fuel : nat) (angleDiff : Q) : option Q :=
  if Qlt_bool Math.PI angleDiff then
    match fuel with
    | O => None
    | S fuel' => whileAbove fuel' (angleDiff - Math.PI * 2)
    end
  else Some angleDiff.

(** [while (angleDiff < -Math.PI) angleDiff += Math.PI * 2], likewise. *)
Fixpoint whileBelow (fuel : nat) (angleDiff : Q) : option Q :=
  if Qlt_bool angleDiff (- Math.PI) then
    match fuel with
    | O => None
    | S fuel' => whileBelow fuel' (angleDiff + Math.PI * 2)
    end
  else Some angleDiff.

(** The two loops in sequence. *)
Definition normalizeAngle (fuel : nat) (angleDiff : Q) : option Q :=
  match whileAbove fuel angleDiff with
  | Some d => whileBelow fuel d
  | None => None
  end.

(** [dt] of [update], from the clock value [now]. *)
Definition frameDt (now : Q) (this : Input) : Q :=
  Math.min ((now - lastTime this) / 1000) (1 # 10).

(** [lerpFactor] of [update], from the clock value [now]. *)
Definition frameLerpFactor (now : Q) (this : Input) : Q :=
  dampingFactor this * frameDt now this.

(** [update()]; [now] is what [performance.now()] returns.  The camera pose
    that the last two statements write into the camera object is
    [cameraPosition] below. *)
Definition update (fuel : nat) (w : Host) (now : Q) (this : Input) : option Input :=
  match camera (sceneSetup w) with
  | None => Some this
  | Some _ =>
      let dt := frameDt now this in
      let this := set_lastTime now this in
      let lerpFactor := dampingFactor this * dt in
      match normalizeAngle fuel (targetAngle this - currentAngle this) with
      | None => None
      | Some angleDiff =>
          let this := set_currentAngle (currentAngle this + angleDiff * lerpFactor) this in
          let this :=
            set_currentHeight
              (currentHeight this + (targetHeight this - currentHeight this) * lerpFactor) this in
          let this :=
            set_currentRadius
              (currentRadius this + (targetRadius this - currentRadius this) * lerpFactor) this in
          Some (set_currentLook (Vector3.lerp (currentLook this) (targetLook this) lerpFactor) this)
      end
  end.

(** The position [update] gives the camera: [x = r sin a], [y = h],
    [z = r cos a], over the reals. *)
Definition cameraPosition (this : Input) : R * R * R :=
  ((Q2R (currentRadius this) * sin (Q2R (currentAngle this)))%R,
   Q2R (currentHeight this),
   (Q2R (currentRadius this) * cos (Q2R (currentAngle this)))%R).

(** ** The controller as a transition system *)

(** What the host can do to the controller: call a public method, assign the
    callback slot, deliver a DOM event, or run a frame at clock value [now]. *)
Inductive Op :=
  | SetEnabled (isEnabled : bool)
  | SetLocked (isLocked : bool)
  | SetLookTarget (vec3 : Vector3.t)
  | MoveCameraTo (vec3 : option Vector3.t)
  | SetOnObjectClicked (f : option Callback)
  | MouseDown (event : Event)
  | MouseMove (event : Event)
  | MouseUp (event : Event)
  | Wheel (event : Event)
  | ProcessClick
  | Update (now : Q).

Definition run (fuel : nat) (w : Host) (op : Op) (this : Input)
  : option (Input * list Effect) :=
  match op with
  | SetEnabled b => Some (setEnabled b this, [])
  | SetLocked b => Some (setLocked b this, [])
  | SetLookTarget v => Some (setLookTarget v this)
  | MoveCameraTo v => Some (moveCameraTo v this)
  | SetOnObjectClicked f => Some (set_onObjectClicked f this, [])
  | MouseDown e => Some (onMouseDown e this, [])
  | MouseMove e => Some (onMouseMove w e this, [])
  | MouseUp e => Some (onMouseUp w e this)
  | Wheel e => Some (onWheel e this)
  | ProcessClick => Some (processClick w this)
  | Update now =>
      match update fuel w now this with
      | Some this' => Some (this', [])
      | None => None
      end
  end.

(** One operation takes [this] to [this'] and has the effects [out]. *)
Definition step (w : Host) (this : Input) (op : Op) (this' : Input) (out : list Effect)
  : Prop :=
  exists fuel, run fuel w op this = Some (this', out).

(** The states the controller can be in: it is constructed, and then
    operated on, in a host that may change between operations. *)
Inductive reachable : Input -> Prop :=
  | reachable_new (now : Q) : reachable (constructor now)
  | reachable_step (w : Host) (this : Input) (op : Op) (this' : Input) (out : list Effect) :
      reachable this -> step w this op this' out -> reachable this'.

(** ** Vocabulary of the specification *)

(** [clamp(v, lo, hi)] *)
Definition clamp (v lo hi : Q) : Q := Math.max lo (Math.min hi v).

(** The orbit invariant on the targets. *)
Definition targetsInRange (this : Input) : Prop :=
  (minRadius this <= targetRadius this /\ targetRadius this <= maxRadius this) /\
  (minHeight this <= targetHeight this /\ targetHeight this <= maxHeight this).

(** The limits and speeds are those the constructor sets. *)
Definition configured (this : Input) : Prop :=
  minRadius this = 150 /\ maxRadius this = 600 /\
  minHeight this = 50 /\ maxHeight this = 500 /\
  dampingFactor this = 5 /\ rotateSpeed this = 4 # 1000 /\
  zoomSpeed this = 5 # 10 /\ panSpeed this = 5 # 10.

(** The four rig targets agree. *)
Definition sameTargets (a b : Input) : Prop :=
  targetAngle a = targetAngle b /\ targetRadius a = targetRadius b /\
  targetHeight a = targetHeight b /\ targetLook a = targetLook b.

(** The node [k] parent links above [o]; every node on the way is in the heap. *)
Fixpoint ancestor (h : gmap ref Object3D) (k : nat) (o : ref) : option ref :=
  match h !! o with
  | None => None
  | Some node =>
      match k with
      | O => Some o
      | S k' =>
          match parent node with
          | Some p => ancestor h k' p
          | None => None
          end
      end
  end.

Definition isFlagged (h : gmap ref Object3D) (o : ref) : bool :=
  match h !! o with
  | Some node => flagged node
  | None => false
  end.

(** [a] is the nearest flagged node of the chain of [o], [k] links above it. *)
Definition nearestFlagged (h : gmap ref Object3D) (o : ref) (k : nat) (a : ref) : Prop :=
  ancestor h k o = Some a /\ isFlagged h a = true /\
  forall j b, (j < k)%nat -> ancestor h j o = Some b -> isFlagged h b = false.

(** The resolver finds a flagged node that is [k] links above the nearest
    hit: the callback is called with it. *)
Definition foundAtDepth (k : nat) : Prop :=
  forall (w : Host) (this : Input) cam hit rest a f,
    camera (sceneSetup w) = Some cam ->
    intersectObjects w (mouse this) cam (getInteractableObjects (sceneSetup w)) = hit :: rest ->
    nearestFlagged (heap w) (object hit) k a ->
    onObjectClicked this = Some f ->
    processClick w this = (this, [Call f a]).


(** Iterations that end both loops of [normalizeAngle] on [d]. *)
Definition angleFuel (d : Q) : nat := Z.to_nat (Qceiling (Qabs d / (Math.PI * 2))).

(** Every wheel event on the canvas is suppressed, whatever the gates say. *)
Definition wheelAlwaysSuppressed : Prop :=
  forall event this, isEventOnCanvas event = true ->
    In PreventDefault (snd (onWheel event this)).

(** The Euclidean distance between the pointer of [up] and that of [down],
    over the reals. *)
Definition pointerDistance (up down : Event) : R :=
  sqrt (Q2R (Math.pow2 (clientX up - clientX down) + Math.pow2 (clientY up - clientY down))).

(** Pointer moves delivered one after the other. *)
Definition moves (w : Host) (events : list Event) (this : Input) : Input :=
  fold_left (fun s e => onMouseMove w e s) events this.

(** ** Concrete hosts, scenes and events *)

(** A window before the scene is initialised. *)
Definition hostWithoutCamera : Host :=
  {| heap := ∅;
     sceneSetup := {| camera := None; interactableObjects := [] |};
     innerWidth := 800;
     innerHeight := 600;
     intersectObjects := fun _ _ _ => [] |}.

Definition plainNode (flag : bool) (p : option ref) : Object3D :=
  {| userData := Some {| isInteractable := flag |}; parent := p |}.

(** A chain 0 -> 1 -> ... -> 6 of nodes, each the child of the next, of which
    only node [k] is flagged; address 9 is the camera. *)
Definition chainHeap (k : nat) : gmap ref Object3D :=
  list_to_map
    (map (fun i => (i, plainNode (Nat.eqb i k) (if Nat.eqb i 6 then None else Some (S i))))
         (seq 0 7)).

(** The ray hits node 0 of the chain first. *)
Definition chainHost (k : nat) : Host :=
  {| heap := chainHeap k;
     sceneSetup := {| camera := Some 9%nat; interactableObjects := [k] |};
     innerWidth := 800;
     innerHeight := 600;
     intersectObjects := fun _ _ _ =>
       [ {| distance := 10; object := 0%nat |}; {| distance := 12; object := k |} ] |}.

Definition canvasEvent (x y dy : Q) : Event :=
  {| tagName := "CANVAS"; button := 0; clientX := x; clientY := y; deltaY := dy |}.

(** A controller whose host has registered callback 7. *)
Definition listening : Input := set_onObjectClicked (Some 7%nat) (constructor 0).

(** The target is half a turn behind the current angle. *)
Definition halfTurnBehind : Input :=
  set_targetAngle ((78 # 100) - Math.PI) (constructor 0).

(** ** Further vocabulary for the controller *)

(** A double of at most 2^53 in absolute value still changes when
    [Math.PI * 2] is taken off it or added to it, so that the two loops of
    [update] end in the source for a difference of angles within this range.
    From about 2^56 on they do not end there, while the loops of the model,
    over the rationals, end for every difference. *)
Definition angleRange : Q := 9007199254740992.

(** The difference between target and current angle is within that range. *)
Definition angleResolved (this : Input) : Prop :=
  Qabs (targetAngle this - currentAngle this) <= angleRange.

(** [op] is not a frame, or it is one on a difference within the range. *)
Definition frameResolved (op : Op) (this : Input) : Prop :=
  match op with
  | Update _ => angleResolved this
  | _ => True
  end.

(** A whole number. *)
Definition integral (q : Q) : Prop := exists z : Z, q == inject_Z z.

(** The pointer of [up] and the recorded down position are on whole pixels. *)
Definition onPixels (up : Event) (this : Input) : Prop :=
  integral (clientX up) /\ integral (clientY up) /\
  integral (Vector2.x (dragStartPosition this)) /\
  integral (Vector2.y (dragStartPosition this)).

(** Starting at [from], the pointer of each event is to the right of, or
    level with, the one before it. *)
Fixpoint movesRight (from : Q) (events : list Event) : Prop :=
  match events with
  | [] => True
  | e :: events' => from <= clientX e /\ movesRight (clientX e) events'
  end.

(** A controller that was asked to zoom out and has not moved yet. *)
Definition zooming : Input := fst (onWheel (canvasEvent 0 0 100) listening).

(** Targets and current values of radius and height are within the limits. *)
Definition orbitInRange (this : Input) : Prop :=
  targetsInRange this /\
  (minRadius this <= currentRadius this /\ currentRadius this <= maxRadius this) /\
  (minHeight this <= currentHeight this /\ currentHeight this <= maxHeight this).

(** [x] lies between [a] and [b], whichever of the two is the larger. *)
Definition between (a b x : Q) : Prop := Qmin a b <= x /\ x <= Qmax a b.

(** The clock does not go back when [op] is a frame. *)
Definition clockAdvances (op : Op) (this : Input) : Prop :=
  match op with
  | Update now => lastTime this <= now
  | _ => True
  end.

(** The Euclidean distance between the pointer of [up] and the recorded down
    position, over the reals: the value of [dist] in [onMouseUp]. *)
Definition releaseDistance (up : Event) (this : Input) : R :=
  sqrt (Q2R (dragDistance2 up this)).

(** The pointer in normalized device coordinates, as [onMouseMove] stores it. *)
Definition normalizedPointer (w : Host) (event : Event) : Vector2.t :=
  Vector2.mk ((clientX event / innerWidth w) * 2 - 1)
             (- (clientY event / innerHeight w) * 2 + 1).

(** The pointer of the last of [events], or [start] when there is none. *)
Definition lastPointer (start : Vector2.t) (events : list Event) : Vector2.t :=
  fold_left (fun _ e => Vector2.mk (clientX e) (clientY e)) events start.

(** The operations that deliver a pointer or wheel event. *)
Definition isInputEvent (op : Op) : bool :=
  match op with
  | MouseDown _ | MouseMove _ | MouseUp _ | Wheel _ => true
  | _ => false
  end.

(** A controller in the middle of a drag that started at (100, 100). *)
Definition dragging : Input := onMouseDown (canvasEvent 100 100 0) listening.

Definition overlayEvent (x y : Q) : Event :=
  {| tagName := "BUTTON"; button := 0; clientX := x; clientY := y; deltaY := 0 |}.

(** ** The registry of interactable nodes: [SceneSetup] *)

(** [registerInteractable(object3D)]; [null] is [None].  The flag is read in
    the heap of scene nodes. *)
Definition registerInteractable (h : gmap ref Object3D) (object3D : option ref)
    (this : SceneSetup) : SceneSetup :=
  match object3D with
  | None => this
  | Some o =>
      if isFlagged h o
      then {| camera := camera this;
              interactableObjects := interactableObjects this ++ [o] |}
      else this
  end.

(** [unregisterInteractable(object3D)]: [filter(obj => obj !== object3D)]. *)
Definition unregisterInteractable (object3D : option ref) (this : SceneSetup) : SceneSetup :=
  {| camera := camera this;
     interactableObjects :=
       List.filter (fun obj => negb (bool_decide (Some obj = object3D)))
                   (interactableObjects this) |}.

(** Registrations and removals, one after the other. *)
Inductive RegistryOp :=
  | Register (object3D : option ref)
  | Unregister (object3D : option ref).

Definition runRegistry (h : gmap ref Object3D) (op : RegistryOp) (this : SceneSetup)
  : SceneSetup :=
  match op with
  | Register o => registerInteractable h o this
  | Unregister o => unregisterInteractable o this
  end.

(** [new SceneSetup()], as far as [Input] reads it. *)
Definition newSceneSetup : SceneSetup := {| camera := None; interactableObjects := [] |}.

(** ** Atmosphere: the lights and the fog of [SceneSetup]

    A three.js colour is modelled by the hexadecimal value it was last set
    to with [setHex]. *)

Module Atmosphere.

Record Fog := { fogColor : Z; near : Q; far : Q }.

Record Scene := { background : Z }.

Record HemisphereLight := { color : Z; groundColor : Z }.

Record DirectionalLight := { intensity : Q }.

(** The fields of [SceneSetup] that [updateAtmosphere] uses; [scene.fog] is
    the object in [fog]. *)
Record t := {
  scene : option Scene;
  fog : option Fog;
  hemiLight : option HemisphereLight;
  dirLight : option DirectionalLight
}.

(** The argument of [updateAtmosphere]; a field that is [undefined] is [None]. *)
Record Params := {
  p_fogColor : option Z;
  p_fogNear : option Q;
  p_fogFar : option Q;
  p_skyColor : option Z;
  p_groundColor : option Z;
  p_sunIntensity : option Q
}.

(** The outcome of a method that can throw: the state it ends in, or the
    state in which a [TypeError] was raised. *)
Inductive Outcome :=
  | Returned (s : t)
  | TypeError (s : t).

(** A number in a condition: zero is falsy, and so is an absent field. *)
Definition truthy (c : option Z) : option Z :=
  match c with
  | Some v => if (v =? 0)%Z then None else Some v
  | None => None
  end.

(** [new SceneSetup()] *)
Definition constructor : t :=
  {| scene := None; fog := None; hemiLight := None; dirLight := None |}.

(** What [init()] and [createLights()] assign to these fields. *)
Definition init (this : t) : t :=
  {| scene := Some {| background := 0x87CEEB%Z |};
     fog := Some {| fogColor := 0x87CEEB%Z; near := 400; far := 1600 |};
     hemiLight := Some {| color := 0xffffff%Z; groundColor := 0xffeeb1%Z |};
     dirLight := Some {| intensity := 13 # 10 |} |}.

(** The first statement of [updateAtmosphere]: it writes the fog colour and
    then [this.scene.background], which throws when [this.scene] is null. *)
Definition updateFogColor (params : Params) (this : t) : Outcome :=
  match truthy (p_fogColor params), fog this with
  | Some c, Some f =>
      let this :=
        {| scene := scene this;
           fog := Some {| fogColor := c; near := near f; far := far f |};
           hemiLight := hemiLight this; dirLight := dirLight this |} in
      match scene this with
      | Some _ =>
          Returned {| scene := Some {| background := c |}; fog := fog this;
                      hemiLight := hemiLight this; dirLight := dirLight this |}
      | None => TypeError this
      end
  | _, _ => Returned this
  end.

(** The statements after it, none of which can throw. *)
Definition updateRest (params : Params) (this : t) : t :=
  let fog1 :=
    match p_fogNear params, fog this with
    | Some n, Some f => Some {| fogColor := fogColor f; near := n; far := far f |}
    | _, _ => fog this
    end in
  let fog2 :=
    match p_fogFar params, fog1 with
    | Some n, Some f => Some {| fogColor := fogColor f; near := near f; far := n |}
    | _, _ => fog1
    end in
  let hemi1 :=
    match hemiLight this, truthy (p_skyColor params) with
    | Some l, Some c => Some {| color := c; groundColor := groundColor l |}
    | _, _ => hemiLight this
    end in
  let hemi2 :=
    match hemi1, truthy (p_groundColor params) with
    | Some l, Some c => Some {| color := color l; groundColor := c |}
    | _, _ => hemi1
    end in
  let dir :=
    match dirLight this, p_sunIntensity params with
    | Some _, Some i => Some {| intensity := i |}
    | _, _ => dirLight this
    end in
  {| scene := scene this; fog := fog2; hemiLight := hemi2; dirLight := dir |}.

Definition updateAtmosphere (params : Params) (this : t) : Outcome :=
  match updateFogColor params this with
  | Returned this => Returned (updateRest params this)
  | TypeError this => TypeError this
  end.

(** The parameters with every colour that is zero taken out. *)
Definition withoutBlack (params : Params) : Params :=
  {| p_fogColor := truthy (p_fogColor params);
     p_fogNear := p_fogNear params;
     p_fogFar := p_fogFar params;
     p_skyColor := truthy (p_skyColor params);
     p_groundColor := truthy (p_groundColor params);
     p_sunIntensity := p_sunIntensity params |}.

(** The background has the colour of the fog. *)
Definition seamless (this : t) : Prop :=
  match scene this, fog this with
  | Some s, Some f => background s = fogColor f
  | _, _ => False
  end.

Definition noParams : Params :=
  {| p_fogColor := None; p_fogNear := None; p_fogFar := None;
     p_skyColor := None; p_groundColor := None; p_sunIntensity := None |}.

(** A storm: dark fog close by, black sky light, dim sun. *)
Definition storm : Params :=
  {| p_fogColor := Some 0x223344%Z; p_fogNear := Some 0; p_fogFar := Some 900;
     p_skyColor := Some 0%Z; p_groundColor := Some 0x101010%Z;
     p_sunIntensity := Some (3 # 10) |}.

End Atmosphere.

(** * The water surface: [Water] of [src/world/Water.js] *)

Module Color.

(** A three.js colour, by its three channels. *)
Record t := mk { r : Q; g : Q; b : Q }.

(** [this.lerpColors(color1, color2, alpha)] *)
Definition lerpColors (color1 color2 : t) (alpha : Q) : t :=
  {| r := r color1 + (r color2 - r color1) * alpha;
     g := g color1 + (g color2 - g color1) * alpha;
     b := b color1 + (b color2 - b color1) * alpha |}.

Definition equiv (c d : t) : Prop := r c == r d /\ g c == g d /\ b c == b d.

(** Every channel of [c] lies between that of [lo] and that of [hi]. *)
Definition within (lo hi c : t) : Prop :=
  between (r lo) (r hi) (r c) /\ between (g lo) (g hi) (g c) /\
  between (b lo) (b hi) (b c).

End Color.

Module Water.

Record Palette := { deep : Color.t; shallow : Color.t; foam : Color.t }.

(** The payload of [EVENTS.STATS_UPDATED], as far as the listener reads it. *)
Record Stats := { fishStock : Q; maxFishStock : Q }.

(** The payload of [DIRECTOR_EVENTS.PHASE_CHANGED]. *)
Record PhaseData := { phaseId : string }.

(** The shader material, by the uniform that [update] assigns.  Its three
    colour uniforms hold the very objects of [uniformColors], which
    [updateColors] changes in place; they are modelled once, there. *)
Record Material := { uTime : Q }.

Record t := {
  material : option Material;
  colorsHealthy : Palette;
  colorsDead : Palette;
  currentHealth : Q;
  targetHealth : Q;
  uniformColors : Palette
}.

(** [new Water()]; the two palettes are the colours three.js makes of the
    hexadecimal strings in the source. *)
Definition constructor (healthy dead : Palette) : t :=
  {| material := None;
     colorsHealthy := healthy;
     colorsDead := dead;
     currentHealth := 1;
     targetHealth := 1;
     uniformColors := healthy |}.

Definition set_targetHealth (v : Q) (this : t) : t :=
  {| material := material this; colorsHealthy := colorsHealthy this;
     colorsDead := colorsDead this; currentHealth := currentHealth this;
     targetHealth := v; uniformColors := uniformColors this |}.

(** [init()], as far as the fields above go: the material is created. *)
Definition init (this : t) : t :=
  {| material := Some {| uTime := 0 |}; colorsHealthy := colorsHealthy this;
     colorsDead := colorsDead this; currentHealth := currentHealth this;
     targetHealth := targetHealth this; uniformColors := uniformColors this |}.

(** The listener of [EVENTS.STATS_UPDATED].  (With [maxFishStock] zero the
    source divides by zero; [Q] division then gives 0.) *)
Definition onStatsUpdated (stats : Stats) (this : t) : t :=
  let ratio := fishStock stats / maxFishStock stats in
  let ratio := Math.max 0 (Math.min 1 ratio) in
  set_targetHealth ratio this.

(** The listener of [DIRECTOR_EVENTS.PHASE_CHANGED]. *)
Definition onPhaseChanged (data : PhaseData) (this : t) : t :=
  if String.eqb (phaseId data) "COLLAPSE" then set_targetHealth 0 this else this.

(** [updateColors(factor)]; it is called by [update] only, after the check
    of the material. *)
Definition updateColors (factor : Q) (this : t) : t :=
  {| material := material this; colorsHealthy := colorsHealthy this;
     colorsDead := colorsDead this; currentHealth := currentHealth this;
     targetHealth := targetHealth this;
     uniformColors :=
       {| deep := Color.lerpColors (deep (colorsDead this)) (deep (colorsHealthy this)) factor;
          shallow :=
            Color.lerpColors (shallow (colorsDead this)) (shallow (colorsHealthy this)) factor;
          foam := Color.lerpColors (foam (colorsDead this)) (foam (colorsHealthy this)) factor |} |}.

Definition lerpSpeed : Q := 5 # 1000.

(** [update(time)].  The health moves by an exact fraction of the distance
    left, where the source rounds the step. *)
Definition update (time : Q) (this : t) : t :=
  match material this with
  | None => this
  | Some _ =>
      let this :=
        {| material := Some {| uTime := time |}; colorsHealthy := colorsHealthy this;
           colorsDead := colorsDead this;
           currentHealth :=
             currentHealth this + (targetHealth this - currentHealth this) * lerpSpeed;
           targetHealth := targetHealth this; uniformColors := uniformColors this |} in
      updateColors (currentHealth this) this
  end.

(** What happens to the water: it is initialised, an event arrives, or a
    frame runs. *)
Inductive Op :=
  | Init
  | StatsUpdated (stats : Stats)
  | PhaseChanged (data : PhaseData)
  | Update (time : Q).

Definition run (op : Op) (this : t) : t :=
  match op with
  | Init => init this
  | StatsUpdated stats => onStatsUpdated stats this
  | PhaseChanged data => onPhaseChanged data this
  | Update time => update time this
  end.

(** Frames at the times [times], one after the other. *)
Definition frames (times : list Q) (this : t) : t :=
  fold_left (fun s time => update time s) times this.

(** The event of [op], if it is a statistics event, has a stock limit that
    is not zero, so that the listener does not divide by zero. *)
Definition divides (op : Op) : Prop :=
  match op with
  | StatsUpdated stats => ~ maxFishStock stats == 0
  | _ => True
  end.

(** Both health values are fractions. *)
Definition healthInRange (this : t) : Prop :=
  (0 <= currentHealth this /\ currentHealth this <= 1) /\
  (0 <= targetHealth this /\ targetHealth this <= 1).

Definition paletteWithin (lo hi p : Palette) : Prop :=
  Color.within (deep lo) (deep hi) (deep p) /\
  Color.within (shallow lo) (shallow hi) (shallow p) /\
  Color.within (foam lo) (foam hi) (foam p).

Definition paletteEquiv (p q : Palette) : Prop :=
  Color.equiv (deep p) (deep q) /\ Color.equiv (shallow p) (shallow q) /\
  Color.equiv (foam p) (foam q).

(** Two palettes to compute with: the channels that the hexadecimal strings
    of the source spell out, as fractions of 255. *)
Definition hex (r g b : Z) : Color.t := Color.mk (r # 255) (g # 255) (b # 255).

Definition healthyPalette : Palette :=
  {| deep := hex 0x2E 0x86 0xC1; shallow := hex 0x85 0xC1 0xE9; foam := hex 0xFF 0xFF 0xFF |}.

Definition deadPalette : Palette :=
  {| deep := hex 0x2F 0x3E 0x30; shallow := hex 0x8B 0x85 0x60; foam := hex 0xC2 0xB2 0x80 |}.

(** Water that has been initialised. *)
Definition fresh : t := init (constructor healthyPalette deadPalette).

End Water.

(** * Properties *)

(** ** Numbers *)

Lemma Qlt_bool_true (a b : Q) : Qlt_bool a b = true <-> a < b.
Proof.
  unfold Qlt_bool. rewrite negb_true_iff.
  destruct (Qle_bool b a) eqn:E.
  - apply Qle_bool_iff in E. split; [discriminate | intros H; exfalso; lra].
  - split; [intros _ | reflexivity].
    apply Qnot_le_lt. intros H. apply Qle_bool_iff in H. congruence.
Qed.

Lemma Qlt_bool_false (a b : Q) : Qlt_bool a b = false <-> b <= a.
Proof.
  unfold Qlt_bool. rewrite negb_false_iff. apply Qle_bool_iff.
Qed.

Lemma PI_pos : 0 < Math.PI.
Proof. reflexivity. Qed.

Lemma clamp_range (v lo hi : Q) : lo <= hi -> lo <= clamp v lo hi /\ clamp v lo hi <= hi.
Proof.
  intros H. unfold clamp, Math.max, Math.min. split.
  - apply Q.le_max_l.
  - apply Q.max_lub; [exact H | apply Q.le_min_l].
Qed.

Lemma clamp_id (v lo hi : Q) : lo <= v -> v <= hi -> clamp v lo hi == v.
Proof.
  intros H1 H2. unfold clamp, Math.max, Math.min.
  rewrite (Q.min_r hi v) by exact H2. apply Q.max_r. exact H1.
Qed.

Lemma sqrt_lt_true (v c : Q) :
  Math.sqrt_lt v c = true <-> 0 <= v /\ 0 < c /\ v < c * c.
Proof.
  unfold Math.sqrt_lt. rewrite !andb_true_iff, Qle_bool_iff.
  fold (Qlt_bool 0 c). fold (Qlt_bool v (c * c)). rewrite !Qlt_bool_true. tauto.
Qed.

Lemma sqrt_lt_real (v c : Q) :
  0 <= v -> (Math.sqrt_lt v c = true <-> (sqrt (Q2R v) < Q2R c)%R).
Proof.
  intros Hv. rewrite sqrt_lt_true.
  assert (Hv' : (0 <= Q2R v)%R) by (replace 0%R with (Q2R 0) by lra; now apply Qle_Rle).
  split.
  - intros (_ & Hc & Hlt).
    assert (Hc' : (0 < Q2R c)%R) by (replace 0%R with (Q2R 0) by lra; now apply Qlt_Rlt).
    apply Qlt_Rlt in Hlt. rewrite Q2R_mult in Hlt.
    rewrite <- (sqrt_square (Q2R c)) by lra.
    apply sqrt_lt_1_alt. lra.
  - intros H. 
    assert (Hs := sqrt_pos (Q2R v)).
    assert (Hc' : (0 < Q2R c)%R) by lra.
    split; [exact Hv|]. split.
    + apply Rlt_Qlt. replace (Q2R 0) with 0%R by lra. exact Hc'.
    + apply Rlt_Qlt. rewrite Q2R_mult.
      rewrite <- (sqrt_sqrt (Q2R v)) by exact Hv'.
      apply Rmult_le_0_lt_compat; lra.
Qed.

(** ** The ancestor walk *)

Section Walk.
Variable h : gmap ref Object3D.

Lemma ancestor_in_heap k o a : ancestor h k o = Some a -> is_Some (h !! o).
Proof. destruct k; simpl; destruct (h !! o); eauto; discriminate. Qed.

Lemma nearestFlagged_here o a :
  nearestFlagged h o 0 a -> a = o /\ exists node, h !! o = Some node /\ flagged node = true.
Proof.
  intros (Ha & Hf & _). simpl in Ha. unfold isFlagged in Hf.
  destruct (h !! o) as [node|] eqn:E; [|discriminate].
  injection Ha as <-. rewrite E in Hf. eauto.
Qed.

Lemma nearestFlagged_above o k a :
  nearestFlagged h o (S k) a ->
  exists node p, h !! o = Some node /\ flagged node = false /\
                 parent node = Some p /\ nearestFlagged h p k a.
Proof.
  intros (Ha & Hf & Hmin). simpl in Ha.
  destruct (h !! o) as [node|] eqn:E; [|discriminate].
  destruct (parent node) as [p|] eqn:Ep; [|discriminate].
  exists node, p. repeat split; auto.
  - specialize (Hmin 0%nat o (Nat.lt_0_succ k)). simpl in Hmin. rewrite E in Hmin.
    specialize (Hmin eq_refl). unfold isFlagged in Hmin. now rewrite E in Hmin.
  - intros j b Hj Hb. apply (Hmin (S j) b); [lia|]. simpl. now rewrite E, Ep.
Qed.

(** A flagged node fewer than [budget] links above [o] is what the walk
    returns ... *)
Lemma findInteractable_found budget : forall o k a,
  nearestFlagged h o k a -> (k < budget)%nat ->
  findInteractable h budget (Some o) = Some a.
Proof.
  induction budget as [|budget IH]; intros o k a Hn Hk; [lia|].
  destruct k as [|k].
  - apply nearestFlagged_here in Hn as (-> & node & E & Hf). simpl. now rewrite E, Hf.
  - apply nearestFlagged_above in Hn as (node & p & E & Hf & Ep & Hn).
    simpl. rewrite E, Hf, Ep. apply (IH p k a Hn). lia.
Qed.

(** ... and one that is [budget] links above it or more is not reached. *)
Lemma findInteractable_beyond budget : forall o k a,
  nearestFlagged h o k a -> (budget <= k)%nat ->
  findInteractable h budget (Some o) = None.
Proof.
  induction budget as [|budget IH]; intros o k a Hn Hk; [reflexivity|].
  destruct k as [|k]; [lia|].
  apply nearestFlagged_above in Hn as (node & p & E & Hf & Ep & Hn).
  simpl. rewrite E, Hf, Ep. apply (IH p k a Hn). lia.
Qed.

(** Whatever the walk returns is the nearest flagged node, and it is fewer
    than [budget] links above the start. *)
Lemma findInteractable_sound budget : forall o a,
  findInteractable h budget (Some o) = Some a ->
  exists k, (k < budget)%nat /\ nearestFlagged h o k a.
Proof.
  induction budget as [|budget IH]; intros o a H; [discriminate|].
  simpl in H. destruct (h !! o) as [node|] eqn:E; [|discriminate].
  destruct (flagged node) eqn:Hf.
  - injection H as <-. exists 0%nat. split; [lia|].
    split; [simpl; now rewrite E|]. split; [unfold isFlagged; now rewrite E|].
    intros; lia.
  - destruct (parent node) as [p|] eqn:Ep; [|destruct budget; discriminate].
    apply IH in H as (k & Hk & Ha & Hfa & Hmin).
    exists (S k). split; [lia|]. repeat split; auto.
    + simpl. now rewrite E, Ep.
    + intros [|j] b Hj Hb; simpl in Hb; rewrite E in Hb.
      * injection Hb as <-. unfold isFlagged. now rewrite E.
      * rewrite Ep in Hb. apply (Hmin j b); [lia | exact Hb].
Qed.

End Walk.

Lemma chain_nearestFlagged (k : nat) :
  (k <= 6)%nat -> nearestFlagged (chainHeap k) 0%nat k k.
Proof.
  intros Hk.
  do 7 (destruct k as [|k];
        [ repeat split; try reflexivity;
          intros j b Hj Hb;
          do 7 (destruct j as [|j];
                [try lia; vm_compute in Hb; injection Hb as <-; reflexivity|]);
          lia |]).
  lia.
Qed.

(** ** The interaction resolver *)

(** C1 (as amended): when the ray hits something, [processClick] takes the
    nearest hit's node and examines that node and then its ancestors, five
    nodes in all, stopping at the first flagged one.  A nearest flagged node
    [k] parent links above the hit node is found exactly when [k < 5] (so the
    third-level ancestor is found, and so is one four links above), and the
    registered callback is then called once with it; a flagged node five links
    above or more is not reached and the click is dropped. *)
Theorem processClick_resolves (w : Host) (this : Input) cam hit rest k a :
  camera (sceneSetup w) = Some cam ->
  intersectObjects w (mouse this) cam (getInteractableObjects (sceneSetup w)) = hit :: rest ->
  nearestFlagged (heap w) (object hit) k a ->
  processClick w this =
    (this, if (k <? 5)%nat
           then match onObjectClicked this with
                | Some f => [Call f a]
                | None => []
                end
           else []).
Proof.
  intros Hcam Hhit Hn. unfold processClick. rewrite Hcam, Hhit.
  destruct (k <? 5)%nat eqn:Hk.
  - apply Nat.ltb_lt in Hk.
    rewrite (findInteractable_found _ 5 _ k a Hn Hk).
    now destruct (onObjectClicked this).
  - apply Nat.ltb_ge in Hk.
    now rewrite (findInteractable_beyond _ 5 _ k a Hn Hk).
Qed.

Lemma processClick_resolves_witness :
  camera (sceneSetup (chainHost 4)) = Some 9%nat /\
  nearestFlagged (heap (chainHost 4)) 0%nat 4 4%nat /\
  processClick (chainHost 4) listening = (listening, [Call 7%nat 4%nat]).
Proof.
  split; [reflexivity|]. split; [apply chain_nearestFlagged; lia|].
  exact (processClick_resolves (chainHost 4) listening 9%nat _ _ 4%nat 4%nat
           eq_refl eq_refl (chain_nearestFlagged 4 ltac:(lia))).
Defined.

(** The scenario of the specification: the third-level ancestor is called. *)
Example third_level_ancestor :
  processClick (chainHost 3) listening = (listening, [Call 7%nat 3%nat]).
Proof. vm_compute. reflexivity. Qed.

(** A flagged node exactly five parent links above the hit node is not found. *)
Lemma fifth_ancestor_not_found : ~ foundAtDepth 5.
Proof.
  intros H.
  specialize (H (chainHost 5) listening 9%nat
                {| distance := 10; object := 0%nat |}
                [ {| distance := 12; object := 5%nat |} ] 5%nat 7%nat
                eq_refl eq_refl (chain_nearestFlagged 5 ltac:(lia)) eq_refl).
  vm_compute in H. discriminate H.
Qed.

(** Up to four links above the hit node it is. *)
Lemma foundAtDepth_within (k : nat) : (k < 5)%nat -> foundAtDepth k.
Proof.
  intros Hk w this cam hit rest a f Hcam Hhit Hn Hf.
  unfold processClick. rewrite Hcam, Hhit, Hf.
  now rewrite (findInteractable_found _ 5 _ k a Hn Hk).
Qed.

(** ** The gesture gates *)

(** C9: [setEnabled(false)] twice is [setEnabled(false)] once, and one call
    disables input and ends a drag in progress. *)
Theorem setEnabled_false_idempotent (this : Input) :
  setEnabled false (setEnabled false this) = setEnabled false this /\
  enabled (setEnabled false this) = false /\
  isDragging (setEnabled false this) = false.
Proof. repeat split. Qed.

(** C10: [setLocked] ends a drag in progress whatever its argument is, so
    unlocking in the middle of a drag discards the drag as locking does. *)
Theorem setLocked_ends_drag (isLocked : bool) (this : Input) :
  isDragging (setLocked isLocked this) = false /\
  locked (setLocked isLocked this) = isLocked /\
  setLocked isLocked this = set_isDragging false (set_locked isLocked this).
Proof. repeat split. Qed.

(** While locked, a pointer move stores the pointer and nothing else. *)
Lemma onMouseMove_locked (w : Host) (event : Event) (this : Input) :
  locked this = true ->
  onMouseMove w event this =
    set_mouse (Vector2.mk ((clientX event / innerWidth w) * 2 - 1)
                          (- (clientY event / innerHeight w) * 2 + 1)) this.
Proof.
  intros Hl. unfold onMouseMove.
  change (locked (set_mouse _ this)) with (locked this). rewrite Hl.
  now rewrite orb_true_r.
Qed.

Lemma moves_locked (w : Host) (events : list Event) : forall this,
  locked this = true ->
  locked (moves w events this) = true /\
  isDragging (moves w events this) = isDragging this /\
  sameTargets (moves w events this) this.
Proof.
  induction events as [|e events IH]; intros this Hl; simpl.
  - repeat split; auto.
  - rewrite (onMouseMove_locked w e this Hl).
    destruct (IH (set_mouse (Vector2.mk ((clientX e / innerWidth w) * 2 - 1)
                                        (- (clientY e / innerHeight w) * 2 + 1)) this) Hl)
      as (H1 & H2 & H3).
    split; [exact H1|]. split; [exact H2 | exact H3].
Qed.

Lemma set_isDragging_same (this : Input) :
  set_isDragging (isDragging this) this = this.
Proof. now destruct this. Qed.

(** C7: [setLocked(true)], in the middle of a drag or not, ends the drag at
    once, and the pointer-up that follows it, after any pointer moves, leaves
    the controller as it finds it: not dragging, no callback and no other
    effect, every target as it was before the lock. *)
Theorem lock_cancels_drag (w : Host) (events : list Event) (up : Event) (this : Input) :
  let s1 := moves w events (setLocked true this) in
  isDragging (setLocked true this) = false /\
  onMouseUp w up s1 = (s1, []) /\
  isDragging (fst (onMouseUp w up s1)) = false /\
  sameTargets (fst (onMouseUp w up s1)) this.
Proof.
  intros s1.
  destruct (moves_locked w events (setLocked true this) eq_refl) as (Hl & Hd & Ht).
  fold s1 in Hl, Hd, Ht. change (isDragging (setLocked true this)) with false in Hd.
  assert (Hup : onMouseUp w up s1 = (s1, [])).
  { unfold onMouseUp. rewrite Hl. destruct (enabled s1); simpl; [|reflexivity].
    now rewrite <- Hd, set_isDragging_same. }
  rewrite Hup. simpl. repeat split; auto; apply Ht.
Qed.

(** ** Before the scene is initialised *)

(** C8: while [sceneSetup.camera] is null, [update] and [processClick] return
    at once: the controller is exactly as it was (so are its current and
    target angle, radius, height and look-at) and no callback is called. *)
Theorem no_camera_no_op (w : Host) (now : Q) (this : Input) :
  camera (sceneSetup w) = None ->
  (forall fuel, update fuel w now this = Some this) /\
  processClick w this = (this, []).
Proof.
  intros Hcam. unfold update, processClick. rewrite Hcam. split; reflexivity.
Qed.

Lemma no_camera_no_op_witness :
  camera (sceneSetup hostWithoutCamera) = None /\
  (forall fuel, update fuel hostWithoutCamera 16 listening = Some listening) /\
  processClick hostWithoutCamera listening = (listening, []).
Proof.
  split; [reflexivity|].
  exact (no_camera_no_op hostWithoutCamera 16 listening eq_refl).
Defined.

(** ** The wheel *)

(** The claim as worded fails: a wheel event on the canvas is not suppressed
    while input is disabled. *)
Lemma wheel_not_suppressed_when_gated : ~ wheelAlwaysSuppressed.
Proof.
  intros H.
  specialize (H (canvasEvent 0 0 100) (setEnabled false (constructor 0)) eq_refl).
  exact H.
Qed.

(** C3 (as amended): for a wheel event on the canvas, when the gates allow
    input ([enabled] and not [locked]) the handler calls [preventDefault] and
    sets the radius target to [targetRadius + deltaY * zoomSpeed] clamped to
    [[minRadius, maxRadius]]; when they do not, it does nothing at all: the
    default scroll is not suppressed and the state is unchanged. *)
Theorem onWheel_on_canvas (event : Event) (this : Input) :
  isEventOnCanvas event = true ->
  onWheel event this =
    if enabled this && negb (locked this)
    then (set_targetRadius
            (clamp (targetRadius this + deltaY event * zoomSpeed this)
                   (minRadius this) (maxRadius this)) this,
          [PreventDefault])
    else (this, []).
Proof.
  intros Hc. unfold onWheel. rewrite Hc.
  destruct (enabled this), (locked this); reflexivity.
Qed.

Lemma onWheel_on_canvas_witness :
  isEventOnCanvas (canvasEvent 0 0 100) = true /\
  onWheel (canvasEvent 0 0 100) (constructor 0) =
    (set_targetRadius (clamp (400 + 100 * (5 # 10)) 150 600) (constructor 0),
     [PreventDefault]).
Proof.
  split; [reflexivity|].
  exact (onWheel_on_canvas (canvasEvent 0 0 100) (constructor 0) eq_refl).
Defined.

(** The scenario of the specification: a wheel delta of +100 takes the radius
    target from 400 to 450. *)
Example wheel_100 :
  targetRadius (fst (onWheel (canvasEvent 0 0 100) (constructor 0))) == 450.
Proof. vm_compute. reflexivity. Qed.

(** Off the canvas the handler does nothing either. *)
Lemma onWheel_off_canvas (event : Event) (this : Input) :
  isEventOnCanvas event = false -> onWheel event this = (this, []).
Proof.
  intros Hc. unfold onWheel. rewrite Hc. now destruct (negb (enabled this) || locked this).
Qed.

(** ** Click or drag *)

(** [onMouseMove] touches neither the gates nor the recorded down position. *)
Lemma onMouseMove_keeps (w : Host) (event : Event) (this : Input) :
  enabled (onMouseMove w event this) = enabled this /\
  locked (onMouseMove w event this) = locked this /\
  dragStartPosition (onMouseMove w event this) = dragStartPosition this.
Proof.
  unfold onMouseMove. simpl.
  destruct (negb (enabled this) || negb (isDragging this) || locked this); repeat split.
Qed.

Lemma moves_keeps (w : Host) (events : list Event) : forall this,
  enabled (moves w events this) = enabled this /\
  locked (moves w events this) = locked this /\
  dragStartPosition (moves w events this) = dragStartPosition this.
Proof.
  induction events as [|e events IH]; intros this; simpl; [repeat split|].
  destruct (IH (onMouseMove w e this)) as (-> & -> & ->).
  apply onMouseMove_keeps.
Qed.

Lemma onMouseDown_records (down : Event) (this : Input) :
  enabled this = true -> locked this = false ->
  isEventOnCanvas down = true -> (button down = 0 \/ button down = 2)%Z ->
  onMouseDown down this =
    set_dragStartPosition (Vector2.mk (clientX down) (clientY down))
      (set_previousMousePosition (Vector2.mk (clientX down) (clientY down))
         (set_isDragging true this)).
Proof.
  intros He Hl Hc Hb. unfold onMouseDown. rewrite He, Hl, Hc. simpl.
  destruct Hb as [-> | ->]; reflexivity.
Qed.

Lemma dragDistance2_nonneg (event : Event) (this : Input) : 0 <= dragDistance2 event this.
Proof.
  unfold dragDistance2, Math.pow2.
  generalize (clientX event - Vector2.x (dragStartPosition this)),
             (clientY event - Vector2.y (dragStartPosition this)).
  intros a b. nra.
Qed.

(** With the gates open and the pointer released on the canvas, the release
    is a click exactly when the square root is below 5. *)
Lemma onMouseUp_classifies (w : Host) (up : Event) (this : Input) :
  enabled this = true -> locked this = false -> isEventOnCanvas up = true ->
  onMouseUp w up this =
    if Math.sqrt_lt (dragDistance2 up this) 5
    then processClick w (set_isDragging false this)
    else (set_isDragging false this, []).
Proof.
  intros He Hl Hc. unfold onMouseUp. rewrite He, Hl, Hc. reflexivity.
Qed.

Lemma sqrt_lt_distance (up : Event) (this : Input) (c : Q) :
  Math.sqrt_lt (dragDistance2 up this) c = true <->
  (sqrt (Q2R (dragDistance2 up this)) < Q2R c)%R.
Proof. apply sqrt_lt_real, dragDistance2_nonneg. Qed.

Lemma Q2R_inject (n : Z) : Q2R (inject_Z n) = IZR n.
Proof. unfold Q2R. simpl. field. Qed.

(** A distance given by its square. *)
Lemma pointerDistance_square (up down : Event) (d : Q) :
  0 <= d ->
  Math.pow2 (clientX up - clientX down) + Math.pow2 (clientY up - clientY down) == d * d ->
  pointerDistance up down = Q2R d.
Proof.
  intros Hd H. unfold pointerDistance. rewrite (Qeq_eqR _ _ H), Q2R_mult.
  apply sqrt_square. replace 0%R with (Q2R 0) by (unfold Q2R; simpl; field).
  now apply Qle_Rle.
Qed.

(** C4: a pointer-down and a pointer-up both handled with input enabled and
    unlocked and on the canvas, with any pointer moves in between: released
    at distance 0 from the down position the pointer-up is a click, handed to
    [processClick]; released 50 px away it only ends the drag. *)
Theorem click_or_drag (w : Host) (this : Input) (down : Event) (events : list Event)
    (up0 up50 : Event) :
  enabled this = true -> locked this = false ->
  isEventOnCanvas down = true -> (button down = 0 \/ button down = 2)%Z ->
  isEventOnCanvas up0 = true -> isEventOnCanvas up50 = true ->
  pointerDistance up0 down = 0%R ->
  pointerDistance up50 down = 50%R ->
  let pressed := moves w events (onMouseDown down this) in
  onMouseUp w up0 pressed = processClick w (set_isDragging false pressed) /\
  onMouseUp w up50 pressed = (set_isDragging false pressed, []).
Proof.
  intros He Hl Hd Hb Hc0 Hc50 H0 H50 pressed.
  destruct (moves_keeps w events (onMouseDown down this)) as (He' & Hl' & Hp).
  fold pressed in He', Hl', Hp.
  rewrite (onMouseDown_records down this He Hl Hd Hb) in He', Hl', Hp.
  simpl in He', Hl', Hp. rewrite He in He'. rewrite Hl in Hl'.
  assert (Hd0 : forall up, Q2R (dragDistance2 up pressed) =
                           Q2R (Math.pow2 (clientX up - clientX down) +
                                Math.pow2 (clientY up - clientY down))).
  { intros up. unfold dragDistance2. now rewrite Hp. }
  split.
  - rewrite (onMouseUp_classifies w up0 pressed He' Hl' Hc0).
    replace (Math.sqrt_lt (dragDistance2 up0 pressed) 5) with true; [reflexivity|].
    symmetry. apply sqrt_lt_distance. rewrite Hd0. fold (pointerDistance up0 down).
    rewrite H0. change 5 with (inject_Z 5). rewrite Q2R_inject. lra.
  - rewrite (onMouseUp_classifies w up50 pressed He' Hl' Hc50).
    destruct (Math.sqrt_lt (dragDistance2 up50 pressed) 5) eqn:E; [|reflexivity].
    apply sqrt_lt_distance in E. rewrite Hd0 in E. fold (pointerDistance up50 down) in E.
    rewrite H50 in E. change 5 with (inject_Z 5) in E. rewrite Q2R_inject in E. lra.
Qed.

Lemma click_or_drag_witness :
  pointerDistance (canvasEvent 100 100 0) (canvasEvent 100 100 0) = 0%R /\
  pointerDistance (canvasEvent 130 140 0) (canvasEvent 100 100 0) = 50%R /\
  let pressed := moves (chainHost 3) [canvasEvent 101 100 0; canvasEvent 100 100 0]
                   (onMouseDown (canvasEvent 100 100 0) listening) in
  onMouseUp (chainHost 3) (canvasEvent 100 100 0) pressed =
    processClick (chainHost 3) (set_isDragging false pressed) /\
  onMouseUp (chainHost 3) (canvasEvent 130 140 0) pressed = (set_isDragging false pressed, []).
Proof.
  assert (H0 : pointerDistance (canvasEvent 100 100 0) (canvasEvent 100 100 0) = 0%R).
  { rewrite (pointerDistance_square _ _ 0); [apply (Q2R_inject 0) | discriminate | reflexivity]. }
  assert (H50 : pointerDistance (canvasEvent 130 140 0) (canvasEvent 100 100 0) = 50%R).
  { rewrite (pointerDistance_square _ _ 50); [apply (Q2R_inject 50) | discriminate | reflexivity]. }
  split; [exact H0|]. split; [exact H50|].
  exact (click_or_drag (chainHost 3) listening (canvasEvent 100 100 0)
           [canvasEvent 101 100 0; canvasEvent 100 100 0]
           (canvasEvent 100 100 0) (canvasEvent 130 140 0)
           eq_refl eq_refl eq_refl (or_introl eq_refl) eq_refl eq_refl H0 H50).
Defined.

(** The scenario of the specification: down at (100,100), move to (140,100),
    up at (140,100): the angle target grows by 0.16 and no callback is called,
    although the ray would hit a clickable node. *)
Example drag_40 :
  let pressed := onMouseMove (chainHost 3) (canvasEvent 140 100 0)
                   (onMouseDown (canvasEvent 100 100 0) listening) in
  targetAngle pressed == targetAngle listening + (16 # 100) /\
  snd (onMouseUp (chainHost 3) (canvasEvent 140 100 0) pressed) = [] /\
  snd (processClick (chainHost 3) pressed) = [Call 7%nat 3%nat].
Proof. vm_compute. repeat split; reflexivity. Qed.

(** ** Angle normalization *)

Lemma two_PI_pos : 0 < Math.PI * 2.
Proof. reflexivity. Qed.

Lemma inject_Z_succ (n : nat) : inject_Z (Z.of_nat (S n)) == inject_Z (Z.of_nat n) + 1.
Proof. rewrite Nat2Z.inj_succ. unfold Z.succ. now rewrite inject_Z_plus. Qed.

Lemma inject_Z_nat_nonneg (n : nat) : 0 <= inject_Z (Z.of_nat n).
Proof. change 0 with (inject_Z 0). rewrite <- Zle_Qle. lia. Qed.

(** The first loop: it ends within [fuel] iterations when [fuel] turns cover
    the excess, it takes whole turns off, and what it leaves is at most
    [Math.PI], and above [-Math.PI] if the loop body ran at all. *)
Lemma whileAbove_spec (fuel : nat) : forall d,
  d <= Math.PI + inject_Z (Z.of_nat fuel) * (Math.PI * 2) ->
  exists r k,
    whileAbove fuel d = Some r /\ r == d + inject_Z k * (Math.PI * 2) /\
    r <= Math.PI /\ (d <= Math.PI -> r = d) /\ (Math.PI < d -> - Math.PI < r).
Proof.
  assert (HP := two_PI_pos).
  induction fuel as [|fuel IH]; intros d Hd.
  - exists d, 0%Z. change (inject_Z 0) with 0. change (inject_Z (Z.of_nat 0)) with 0 in Hd. cbn [whileAbove].
    assert (Hle : d <= Math.PI) by lra.
    apply Qlt_bool_false in Hle. rewrite Hle.
    repeat split; auto; lra.
  - cbn [whileAbove]. destruct (Qlt_bool Math.PI d) eqn:E.
    + apply Qlt_bool_true in E. rewrite inject_Z_succ in Hd.
      destruct (IH (d - Math.PI * 2)) as (r & k & Hr & Hk & Hle & Hid & Hgt); [lra|].
      exists r, (k - 1)%Z. rewrite Hr. split; [reflexivity|].
      split; [unfold Zminus; rewrite Hk, inject_Z_plus, inject_Z_opp;
             change (inject_Z 1) with 1; ring|].
      split; [exact Hle|]. split; [lra|]. intros _.
      destruct (Qlt_le_dec Math.PI (d - Math.PI * 2)) as [H|H].
      * now apply Hgt.
      * rewrite (Hid H). lra.
    + apply Qlt_bool_false in E. exists d, 0%Z. change (inject_Z 0) with 0.
      repeat split; auto; lra.
Qed.

Lemma whileBelow_spec (fuel : nat) : forall d,
  - Math.PI - inject_Z (Z.of_nat fuel) * (Math.PI * 2) <= d ->
  exists r k,
    whileBelow fuel d = Some r /\ r == d + inject_Z k * (Math.PI * 2) /\
    - Math.PI <= r /\ (- Math.PI <= d -> r = d) /\ (d < - Math.PI -> r < Math.PI).
Proof.
  assert (HP := two_PI_pos).
  induction fuel as [|fuel IH]; intros d Hd.
  - exists d, 0%Z. change (inject_Z 0) with 0. change (inject_Z (Z.of_nat 0)) with 0 in Hd. cbn [whileBelow].
    assert (Hle : - Math.PI <= d) by lra.
    apply Qlt_bool_false in Hle. rewrite Hle.
    repeat split; auto; lra.
  - cbn [whileBelow]. destruct (Qlt_bool d (- Math.PI)) eqn:E.
    + apply Qlt_bool_true in E. rewrite inject_Z_succ in Hd.
      destruct (IH (d + Math.PI * 2)) as (r & k & Hr & Hk & Hle & Hid & Hgt); [lra|].
      exists r, (k + 1)%Z. rewrite Hr. split; [reflexivity|].
      split; [rewrite Hk, inject_Z_plus; change (inject_Z 1) with 1; ring|].
      split; [exact Hle|]. split; [lra|]. intros _.
      destruct (Qlt_le_dec (d + Math.PI * 2) (- Math.PI)) as [H|H].
      * now apply Hgt.
      * rewrite (Hid H). lra.
    + apply Qlt_bool_false in E. exists d, 0%Z. change (inject_Z 0) with 0.
      repeat split; auto; lra.
Qed.




(** Both loops: the result is a whole number of turns away from [d] and lies
    in the closed interval from [-Math.PI] to [Math.PI]. *)
Lemma normalizeAngle_spec (fuel : nat) (d : Q) :
  Qabs d <= inject_Z (Z.of_nat fuel) * (Math.PI * 2) ->
  exists r k,
    normalizeAngle fuel d = Some r /\ r == d + inject_Z k * (Math.PI * 2) /\
    - Math.PI <= r /\ r <= Math.PI.
Proof.
  intros Hd. assert (HP := two_PI_pos). assert (HPI := PI_pos).
  assert (Hn := inject_Z_nat_nonneg fuel).
  assert (Hf : 0 <= inject_Z (Z.of_nat fuel) * (Math.PI * 2)) by nra.
  apply Qabs_Qle_condition in Hd as [Hlo Hhi].
  destruct (whileAbove_spec fuel d) as (r1 & k1 & Hr1 & Hk1 & Hle1 & Hid1 & Hgt1); [lra|].
  unfold normalizeAngle. rewrite Hr1.
  destruct (Qlt_le_dec Math.PI d) as [H|H].
  - specialize (Hgt1 H).
    destruct (whileBelow_spec fuel r1) as (r2 & k2 & Hr2 & _ & _ & Hid2 & _); [lra|].
    rewrite (Hid2 ltac:(lra)) in Hr2.
    exists r1, k1. repeat split; auto; lra.
  - rewrite (Hid1 H) in *.
    destruct (whileBelow_spec fuel d) as (r2 & k2 & Hr2 & Hk2 & Hle2 & Hid2 & Hlt2); [lra|].
    exists r2, k2. repeat split; auto.
    destruct (Qlt_le_dec d (- Math.PI)) as [H'|H'].
    + specialize (Hlt2 H'). lra.
    + rewrite (Hid2 H'). exact H.
Qed.

Lemma angleFuel_enough (d : Q) (fuel : nat) :
  (angleFuel d <= fuel)%nat -> Qabs d <= inject_Z (Z.of_nat fuel) * (Math.PI * 2).
Proof.
  intros Hf. assert (HP := two_PI_pos). unfold angleFuel in Hf.
  set (q := Qabs d / (Math.PI * 2)) in *.
  assert (Hq : 0 <= q).
  { unfold q. apply Qle_shift_div_l; [exact HP|]. rewrite Qmult_0_l. apply Qabs_nonneg. }
  assert (Hc : (0 <= Qceiling q)%Z).
  { change 0%Z with (Qceiling 0). now apply Qceiling_resp_le. }
  assert (Hz : (Qceiling q <= Z.of_nat fuel)%Z) by lia.
  assert (H1 : q <= inject_Z (Z.of_nat fuel)).
  { apply Qle_trans with (inject_Z (Qceiling q)); [apply Qle_ceiling|]. now rewrite <- Zle_Qle. }
  assert (H2 : Qabs d == q * (Math.PI * 2)).
  { unfold q. field. intros H. rewrite H in HP. discriminate. }
  rewrite H2. apply Qmult_le_compat_r; [exact H1 | lra].
Qed.

(** Over the rationals: among the angles a whole number of turns away from
    [d], one in the closed interval is nearest to zero. *)
Lemma shortest_arc (d r : Q) (k : Z) :
  r == d + inject_Z k * (Math.PI * 2) -> - Math.PI <= r -> r <= Math.PI ->
  forall m : Z, Qabs r <= Qabs (d + inject_Z m * (Math.PI * 2)).
Proof.
  intros Hk Hlo Hhi m. assert (HP := PI_pos).
  assert (Hr : Qabs r <= Math.PI) by (apply Qabs_Qle_condition; split; lra).
  assert (Hm : d + inject_Z m * (Math.PI * 2) == r + inject_Z (m - k) * (Math.PI * 2)).
  { unfold Zminus. rewrite Hk, inject_Z_plus, inject_Z_opp. ring. }
  rewrite Hm.
  destruct (Z.lt_trichotomy (m - k) 0) as [Hj | [Hj | Hj]].
  - assert (Hq : inject_Z (m - k) <= -1).
    { change (-1) with (inject_Z (-1)). rewrite <- Zle_Qle. lia. }
    apply Qle_trans with Math.PI; [exact Hr|].
    apply Qle_trans with (- (r + inject_Z (m - k) * (Math.PI * 2))); [nra|].
    rewrite <- Qabs_opp. apply Qle_Qabs.
  - rewrite Hj. change (inject_Z 0) with 0. 
    assert (He : r + 0 * (Math.PI * 2) == r) by lra. rewrite He. apply Qle_refl.
  - assert (Hq : 1 <= inject_Z (m - k)).
    { change 1 with (inject_Z 1). rewrite <- Zle_Qle. lia. }
    apply Qle_trans with Math.PI; [exact Hr|].
    apply Qle_trans with (r + inject_Z (m - k) * (Math.PI * 2)); [nra|].
    apply Qle_Qabs.
Qed.




(** ** The per-frame update *)

(** With a camera and enough fuel for the two loops, [update] returns, and
    this is what it leaves in the fields it assigns. *)
Lemma update_runs (w : Host) (now : Q) (this : Input) cam (fuel : nat) :
  camera (sceneSetup w) = Some cam ->
  (angleFuel (targetAngle this - currentAngle this) <= fuel)%nat ->
  exists d this',
    normalizeAngle fuel (targetAngle this - currentAngle this) = Some d /\
    update fuel w now this = Some this' /\
    lastTime this' = now /\
    currentAngle this' = currentAngle this + d * frameLerpFactor now this /\
    currentHeight this' =
      currentHeight this + (targetHeight this - currentHeight this) * frameLerpFactor now this /\
    currentRadius this' =
      currentRadius this + (targetRadius this - currentRadius this) * frameLerpFactor now this /\
    currentLook this' =
      Vector3.lerp (currentLook this) (targetLook this) (frameLerpFactor now this).
Proof.
  intros Hcam Hf.
  destruct (normalizeAngle_spec fuel _ (angleFuel_enough _ _ Hf)) as (d & k & Hd & _).
  exists d. unfold update. rewrite Hcam.
  change (targetAngle (set_lastTime now this)) with (targetAngle this).
  change (currentAngle (set_lastTime now this)) with (currentAngle this).
  rewrite Hd. eexists. repeat split.
Qed.

(** [update] assigns nothing but the clock and the current values. *)
Lemma update_frame (fuel : nat) (w : Host) (now : Q) (this this' : Input) :
  update fuel w now this = Some this' ->
  sameTargets this' this /\
  minRadius this' = minRadius this /\ maxRadius this' = maxRadius this /\
  minHeight this' = minHeight this /\ maxHeight this' = maxHeight this /\
  dampingFactor this' = dampingFactor this /\ rotateSpeed this' = rotateSpeed this /\
  zoomSpeed this' = zoomSpeed this /\ panSpeed this' = panSpeed this /\
  enabled this' = enabled this /\ locked this' = locked this /\
  isDragging this' = isDragging this.
Proof.
  unfold update, sameTargets. destruct (camera (sceneSetup w)).
  - destruct (normalizeAngle _ _); [|discriminate]. intros [= <-]. repeat split.
  - intros [= <-]. repeat split.
Qed.

(** Every operation goes through; for a frame, that is with the difference
    of angles within the range in which the loops of the source end. *)
Lemma step_returns (w : Host) (this : Input) (op : Op) :
  frameResolved op this -> exists this' out, step w this op this' out.
Proof.
  intros _. unfold step.
  destruct op as [b | b | v | v | f | e | e | e | e | | t];
    try (do 2 eexists; exists 0%nat; simpl; f_equal; apply surjective_pairing).
  destruct (camera (sceneSetup w)) as [cam|] eqn:Hcam.
  - destruct (update_runs w t this cam _ Hcam (Nat.le_refl _)) as (d & this' & _ & Hu & _).
    exists this', [], (angleFuel (targetAngle this - currentAngle this)).
    simpl. now rewrite Hu.
  - exists this, [], 0%nat. simpl. unfold update. now rewrite Hcam.
Qed.

(** No operation assigns a limit or a speed, and a target for the radius or
    the height is either left alone or assigned a clamped value. *)
Lemma run_limits (fuel : nat) (w : Host) (op : Op) (this this' : Input) out :
  run fuel w op this = Some (this', out) ->
  (minRadius this' = minRadius this /\ maxRadius this' = maxRadius this /\
   minHeight this' = minHeight this /\ maxHeight this' = maxHeight this /\
   dampingFactor this' = dampingFactor this /\ rotateSpeed this' = rotateSpeed this /\
   zoomSpeed this' = zoomSpeed this /\ panSpeed this' = panSpeed this) /\
  (targetRadius this' = targetRadius this \/
   exists v, targetRadius this' = clamp v (minRadius this) (maxRadius this)) /\
  (targetHeight this' = targetHeight this \/
   exists v, targetHeight this' = clamp v (minHeight this) (maxHeight this)).
Proof.
  destruct op as [isEnabled | isLocked | vec3 | vec3 | f | event | event | event | event | | t];
    simpl; intros H.
  - injection H as <- <-. unfold setEnabled. destruct isEnabled; simpl; tauto.
  - injection H as <- <-. unfold setLocked. simpl. tauto.
  - injection H as <- <-. simpl. tauto.
  - destruct vec3; injection H as <- <-; simpl; tauto.
  - injection H as <- <-. simpl. tauto.
  - injection H as <- <-. unfold onMouseDown.
    destruct (negb (enabled this) || locked this); [tauto|].
    destruct (negb (isEventOnCanvas event)); [tauto|].
    destruct (negb (button event =? 0)%Z && negb (button event =? 2)%Z); simpl; tauto.
  - injection H as <- <-. unfold onMouseMove. 
    change (enabled (set_mouse _ this)) with (enabled this).
    change (isDragging (set_mouse _ this)) with (isDragging this).
    change (locked (set_mouse _ this)) with (locked this).
    destruct (negb (enabled this) || negb (isDragging this) || locked this); simpl; [tauto|].
    repeat split; auto. right. eexists. reflexivity.
  - unfold onMouseUp, processClick in H.
    destruct (negb (enabled this)); [injection H as <- <-; tauto|].
    destruct (locked this); [injection H as <- <-; simpl; tauto|].
    destruct (negb (isEventOnCanvas event)); [injection H as <- <-; simpl; tauto|].
    destruct (Math.sqrt_lt _ _); [|injection H as <- <-; simpl; tauto].
    destruct (camera (sceneSetup w)); [|injection H as <- <-; simpl; tauto].
    destruct (intersectObjects _ _ _ _); [injection H as <- <-; simpl; tauto|].
    destruct (findInteractable _ _ _); [|injection H as <- <-; simpl; tauto].
    change (onObjectClicked (set_isDragging false this)) with (onObjectClicked this) in H.
    destruct (onObjectClicked this); injection H as <- <-; simpl; tauto.
  - unfold onWheel in H.
    destruct (negb (enabled this) || locked this); [injection H as <- <-; tauto|].
    destruct (negb (isEventOnCanvas event)); injection H as <- <-; simpl; [tauto|].
    repeat split; auto. right. eexists. reflexivity.
  - unfold processClick in H.
    destruct (camera (sceneSetup w)); [|injection H as <- <-; tauto].
    destruct (intersectObjects _ _ _ _); [injection H as <- <-; tauto|].
    destruct (findInteractable _ _ _); [|injection H as <- <-; tauto].
    destruct (onObjectClicked this); injection H as <- <-; tauto.
  - destruct (update fuel w t this) as [s|] eqn:Hu; [|discriminate].
    injection H as <- <-.
    destruct (update_frame _ _ _ _ _ Hu) as ((_ & -> & -> & _) & -> & -> & -> & -> & -> & -> & -> & -> & _).
    tauto.
Qed.

(** ** The orbit invariant *)

(** C6: the bounds on the radius target and on the height target are an
    invariant: if they hold, they hold after every operation, whatever event
    it delivers, in particular after a pointer move of a drag and after a
    wheel event with however large a delta.  Every operation goes through;
    for a frame that is stated for a difference of angles within
    [angleRange], beyond which the loops of the source need not end. *)
Theorem targets_stay_in_range (w : Host) (this : Input) (op : Op) :
  targetsInRange this ->
  (frameResolved op this -> exists this' out, step w this op this' out) /\
  (forall this' out, step w this op this' out -> targetsInRange this').
Proof.
  intros ((Hr1 & Hr2) & (Hh1 & Hh2)). split; [apply step_returns|].
  intros this' out (fuel & Hrun).
  destruct (run_limits fuel w op this this' out Hrun)
    as ((E1 & E2 & E3 & E4 & _) & Hr & Hh).
  unfold targetsInRange. rewrite E1, E2, E3, E4. split.
  - destruct Hr as [-> | (v & ->)]; [tauto|]. apply clamp_range. lra.
  - destruct Hh as [-> | (v & ->)]; [tauto|]. apply clamp_range. lra.
Qed.

Lemma constructor_targetsInRange (now : Q) : targetsInRange (constructor now).
Proof. repeat split; discriminate. Qed.

Lemma targets_stay_in_range_witness :
  targetsInRange (constructor 0) /\
  targetsInRange (fst (onWheel (canvasEvent 0 0 1000000000) (constructor 0))).
Proof.
  split; [apply constructor_targetsInRange|].
  exact (proj2 (targets_stay_in_range hostWithoutCamera (constructor 0)
                  (Wheel (canvasEvent 0 0 1000000000)) (constructor_targetsInRange 0))
               (fst (onWheel (canvasEvent 0 0 1000000000) (constructor 0)))
               (snd (onWheel (canvasEvent 0 0 1000000000) (constructor 0)))
               (ex_intro _ 0%nat eq_refl)).
Defined.

(** An extreme drag and an extreme wheel delta stop at the limits. *)
Example extreme_inputs :
  let dragged := onMouseMove (chainHost 3) (canvasEvent 0 (-1000000000) 0)
                   (onMouseDown (canvasEvent 0 0 0) (constructor 0)) in
  targetHeight dragged == 50 /\
  targetRadius (fst (onWheel (canvasEvent 0 0 1000000000) dragged)) == 600.
Proof. vm_compute. split; reflexivity. Qed.

(** The states the controller reaches from its construction keep the limits
    and speeds of the constructor and satisfy the orbit invariant. *)
Lemma reachable_configured (this : Input) : reachable this -> configured this.
Proof.
  induction 1 as [now | w this op this' out _ IH (fuel & Hrun)].
  - repeat split.
  - destruct (run_limits fuel w op this this' out Hrun)
      as ((E1 & E2 & E3 & E4 & E5 & E6 & E7 & E8) & _).
    unfold configured. rewrite E1, E2, E3, E4, E5, E6, E7, E8. exact IH.
Qed.

Lemma reachable_targetsInRange (this : Input) : reachable this -> targetsInRange this.
Proof.
  induction 1 as [now | w this op this' out _ IH (fuel & Hrun)].
  - apply constructor_targetsInRange.
  - destruct (run_limits fuel w op this this' out Hrun)
      as ((E1 & E2 & E3 & E4 & _) & Hr & Hh).
    destruct IH as ((Hr1 & Hr2) & (Hh1 & Hh2)).
    unfold targetsInRange. rewrite E1, E2, E3, E4. split.
    + destruct Hr as [-> | (v & ->)]; [tauto|]. apply clamp_range. lra.
    + destruct Hh as [-> | (v & ->)]; [tauto|]. apply clamp_range. lra.
Qed.

(** ** The interpolation factor *)

Lemma frameDt_le (now : Q) (this : Input) : frameDt now this <= 1 # 10.
Proof. unfold frameDt, Math.min. apply Q.le_min_r. Qed.

Lemma frameDt_nonneg (now : Q) (this : Input) :
  lastTime this <= now -> 0 <= frameDt now this.
Proof.
  intros H. unfold frameDt, Math.min. apply Q.min_glb; [|discriminate].
  apply Qle_shift_div_l; [reflexivity | lra].
Qed.

Lemma angleResolved_small (this : Input) :
  Qle_bool (Qabs (targetAngle this - currentAngle this)) angleRange = true ->
  angleResolved this.
Proof. intros H. now apply Qle_bool_iff. Qed.

(** C5: in a frame that runs (there is a camera, and the difference of
    angles is within [angleRange]), [dt] is the time since the last frame in
    seconds, [(now - lastTime) / 1000], cut off at 0.1: it is the elapsed
    time up to 0.1 s and 0.1 s from there on.  With the damping factor 5.0 of
    the constructor and a clock that does not go back, the factor
    [dampingFactor * dt] the frame uses equals
    [clamp(dampingFactor * dt, 0, 1)] and is at most 1; the frame records the
    clock, and this is the factor by which the current angle, height, radius
    and look-at point move. *)
Theorem update_lerp_factor (w : Host) (now : Q) (this : Input) cam :
  camera (sceneSetup w) = Some cam ->
  dampingFactor this == 5 ->
  lastTime this <= now ->
  angleResolved this ->
  let elapsed := (now - lastTime this) / 1000 in
  let dt := frameDt now this in
  let factor := clamp (dampingFactor this * dt) 0 1 in
  dt = Math.min elapsed (1 # 10) /\
  (elapsed <= 1 # 10 -> dt == elapsed) /\
  (1 # 10 <= elapsed -> dt == 1 # 10) /\
  dt <= 1 # 10 /\ factor <= 1 /\ frameLerpFactor now this == factor /\
  forall fuel, (angleFuel (targetAngle this - currentAngle this) <= fuel)%nat ->
    exists d this',
      normalizeAngle fuel (targetAngle this - currentAngle this) = Some d /\
      update fuel w now this = Some this' /\
      lastTime this' = now /\
      currentAngle this' == currentAngle this + d * factor /\
      currentHeight this' ==
        currentHeight this + (targetHeight this - currentHeight this) * factor /\
      currentRadius this' ==
        currentRadius this + (targetRadius this - currentRadius this) * factor /\
      Vector3.equiv (currentLook this')
        (Vector3.lerp (currentLook this) (targetLook this) factor).
Proof.
  intros Hcam H5 Hclock _ elapsed dt factor.
  assert (Hdt1 := frameDt_le now this). assert (Hdt0 := frameDt_nonneg now this Hclock).
  fold dt in Hdt1, Hdt0.
  assert (Hprod : dampingFactor this * dt == 5 * dt) by (now rewrite H5).
  assert (Hfac : frameLerpFactor now this == factor).
  { unfold factor, frameLerpFactor. fold dt. symmetry. apply clamp_id; lra. }
  split; [reflexivity|].
  split; [intros H; unfold dt, frameDt, Math.min; fold elapsed; now apply Q.min_l|].
  split; [intros H; unfold dt, frameDt, Math.min; fold elapsed; now apply Q.min_r|].
  split; [exact Hdt1|]. split; [apply clamp_range; discriminate|]. split; [exact Hfac|].
  intros fuel Hfuel.
  destruct (update_runs w now this cam fuel Hcam Hfuel)
    as (d & this' & Hd & Hu & Hl & Ea & Eh & Er & El).
  exists d, this'. split; [exact Hd|]. split; [exact Hu|]. split; [exact Hl|].
  rewrite Ea, Eh, Er, El. unfold Vector3.equiv, Vector3.lerp. simpl.
  rewrite Hfac. repeat split; reflexivity.
Qed.

Lemma update_lerp_factor_witness :
  dampingFactor zooming == 5 /\ lastTime zooming <= 16 /\ angleResolved zooming /\
  frameDt 16 zooming == 16 # 1000 /\
  frameLerpFactor 16 zooming == clamp (dampingFactor zooming * frameDt 16 zooming) 0 1 /\
  exists this',
    update 0 (chainHost 3) 16 zooming = Some this' /\ lastTime this' = 16 /\
    currentRadius this' == 400 + (450 - 400) * (5 * (16 # 1000)).
Proof.
  assert (Hr : angleResolved zooming) by (apply angleResolved_small; reflexivity).
  split; [reflexivity|]. split; [discriminate|]. split; [exact Hr|].
  destruct (update_lerp_factor (chainHost 3) 16 zooming 9%nat eq_refl
              ltac:(reflexivity) ltac:(discriminate) Hr)
    as (_ & H1 & _ & _ & _ & H2 & Hrun).
  split; [rewrite (H1 ltac:(discriminate)); reflexivity|]. split; [exact H2|].
  destruct (Hrun 0%nat ltac:(reflexivity)) as (d & this' & _ & Hu & Hl & _ & _ & Er & _).
  exists this'. split; [exact Hu|]. split; [exact Hl|].
  rewrite Er. reflexivity.
Defined.

(** The factor is the clamped one in every state the controller reaches. *)
Lemma reachable_dampingFactor (this : Input) : reachable this -> dampingFactor this == 5.
Proof.
  intros H. destruct (reachable_configured this H) as (_ & _ & _ & _ & -> & _). reflexivity.
Qed.

(** After a stall of ten seconds the frame still advances by 0.1 s only. *)
Example stalled_frame : frameDt 10000 (constructor 0) == 1 # 10.
Proof. reflexivity. Qed.

(** ** The shorter way round *)




(** The example of the specification, in radians: from 1 degree to a target
    of 359 degrees the difference used is -2 degrees, through 0. *)
Example from_1_to_359_degrees :
  match normalizeAngle 1 (359 * Math.PI / 180 - 1 * Math.PI / 180) with
  | Some d => d == - (2 * Math.PI / 180)
  | None => False
  end.
Proof. vm_compute. reflexivity. Qed.

(** The frame itself, half a turn behind: the angle moves by
    [-Math.PI * lerpFactor]. *)
Example half_turn_frame :
  match update 0 (chainHost 3) 16 halfTurnBehind with
  | Some this' =>
      currentAngle this' == currentAngle halfTurnBehind + - Math.PI * (5 * (16 # 1000))
  | None => False
  end.
Proof. vm_compute. reflexivity. Qed.

(** * Further properties of the controller *)

(** ** Drags and gates *)

Lemma run_drag_gates (fuel : nat) (w : Host) (op : Op) (this this' : Input) out :
  (isDragging this = true -> enabled this = true /\ locked this = false) ->
  run fuel w op this = Some (this', out) ->
  isDragging this' = true -> enabled this' = true /\ locked this' = false.
Proof.
  intros Hinv.
  destruct op as [isEnabled | isLocked | vec3 | vec3 | f | event | event | event | event | | t];
    simpl; intros H.
  - injection H as <- <-. unfold setEnabled. destruct isEnabled; simpl; [|discriminate].
    intros Hd. destruct (Hinv Hd). auto.
  - injection H as <- <-. unfold setLocked. simpl. discriminate.
  - injection H as <- <-. simpl. exact Hinv.
  - destruct vec3; injection H as <- <-; simpl; exact Hinv.
  - injection H as <- <-. simpl. exact Hinv.
  - injection H as <- <-. unfold onMouseDown.
    destruct (negb (enabled this) || locked this) eqn:G; [exact Hinv|].
    destruct (negb (isEventOnCanvas event)); [exact Hinv|].
    destruct (negb (button event =? 0)%Z && negb (button event =? 2)%Z); [exact Hinv|].
    simpl. intros _. apply orb_false_iff in G as (G1 & G2).
    apply negb_false_iff in G1. auto.
  - injection H as <- <-. destruct (onMouseMove_keeps w event this) as (-> & -> & _).
    unfold onMouseMove.
    change (enabled (set_mouse _ this)) with (enabled this).
    change (isDragging (set_mouse _ this)) with (isDragging this).
    change (locked (set_mouse _ this)) with (locked this).
    destruct (negb (enabled this) || negb (isDragging this) || locked this); simpl; exact Hinv.
  - unfold onMouseUp, processClick in H.
    destruct (negb (enabled this)); [injection H as <- <-; exact Hinv|].
    destruct (locked this); [injection H as <- <-; simpl; discriminate|].
    destruct (negb (isEventOnCanvas event)); [injection H as <- <-; simpl; discriminate|].
    destruct (Math.sqrt_lt _ _); [|injection H as <- <-; simpl; discriminate].
    destruct (camera (sceneSetup w)); [|injection H as <- <-; simpl; discriminate].
    destruct (intersectObjects _ _ _ _); [injection H as <- <-; simpl; discriminate|].
    destruct (findInteractable _ _ _); [|injection H as <- <-; simpl; discriminate].
    change (onObjectClicked (set_isDragging false this)) with (onObjectClicked this) in H.
    destruct (onObjectClicked this); injection H as <- <-; simpl; discriminate.
  - unfold onWheel in H.
    destruct (negb (enabled this) || locked this); [injection H as <- <-; exact Hinv|].
    destruct (negb (isEventOnCanvas event)); injection H as <- <-; simpl; exact Hinv.
  - unfold processClick in H.
    destruct (camera (sceneSetup w)); [|injection H as <- <-; exact Hinv].
    destruct (intersectObjects _ _ _ _); [injection H as <- <-; exact Hinv|].
    destruct (findInteractable _ _ _); [|injection H as <- <-; exact Hinv].
    destruct (onObjectClicked this); injection H as <- <-; exact Hinv.
  - destruct (update fuel w t this) as [s|] eqn:Hu; [|discriminate].
    injection H as <- <-.
    destruct (update_frame _ _ _ _ _ Hu) as (_ & _ & _ & _ & _ & _ & _ & _ & _ & -> & -> & ->).
    exact Hinv.
Qed.

Lemma reachable_listening : reachable listening.
Proof.
  apply (reachable_step hostWithoutCamera (constructor 0) (SetOnObjectClicked (Some 7%nat))
           listening []); [apply reachable_new | exists 0%nat; reflexivity].
Qed.

Lemma reachable_dragging : reachable dragging.
Proof.
  apply (reachable_step hostWithoutCamera listening (MouseDown (canvasEvent 100 100 0))
           dragging []); [apply reachable_listening | exists 0%nat; reflexivity].
Qed.

(** X1: in every state the controller reaches, a drag is in progress only
    while input is enabled and not locked. *)
Theorem drag_only_with_open_gates (this : Input) :
  reachable this -> isDragging this = true ->
  enabled this = true /\ locked this = false.
Proof.
  induction 1 as [now | w this op this' out _ IH (fuel & Hrun)].
  - discriminate.
  - exact (run_drag_gates fuel w op this this' out IH Hrun).
Qed.

Lemma drag_only_with_open_gates_witness :
  isDragging dragging = true /\ enabled dragging = true /\ locked dragging = false.
Proof.
  split; [reflexivity|].
  exact (drag_only_with_open_gates dragging reachable_dragging eq_refl).
Defined.

(** X2: no operation assigns a limit or a speed: in every state the
    controller reaches they are those of the constructor (radius 150 to 600,
    height 50 to 500, damping 5, rotate 0.004, zoom and pan 0.5). *)
Theorem limits_and_speeds_constant (this : Input) :
  reachable this -> configured this.
Proof. apply reachable_configured. Qed.

Lemma limits_and_speeds_constant_witness : configured dragging.
Proof. exact (limits_and_speeds_constant dragging reachable_dragging). Defined.

(** ** Pointer moves *)

Lemma onMouseMove_mouse (w : Host) (event : Event) (this : Input) :
  mouse (onMouseMove w event this) = normalizedPointer w event.
Proof.
  unfold onMouseMove, normalizedPointer.
  destruct (negb (enabled (set_mouse _ this)) || negb (isDragging (set_mouse _ this))
            || locked (set_mouse _ this)); reflexivity.
Qed.

Lemma onMouseMove_idle (w : Host) (event : Event) (this : Input) :
  enabled this = false \/ isDragging this = false \/ locked this = true ->
  onMouseMove w event this = set_mouse (normalizedPointer w event) this.
Proof.
  intros H. unfold onMouseMove, normalizedPointer.
  change (enabled (set_mouse _ this)) with (enabled this).
  change (isDragging (set_mouse _ this)) with (isDragging this).
  change (locked (set_mouse _ this)) with (locked this).
  destruct H as [-> | [-> | ->]]; simpl; try reflexivity.
  - now rewrite orb_true_r.
  - now rewrite orb_true_r.
Qed.

(** X3: pointer moves while no drag is in progress, however many, change
    nothing but the stored pointer, which is that of the last move: no
    target moves and no drag starts. *)
Theorem idle_moves_store_pointer_only (w : Host) (events : list Event) (event : Event) :
  forall this : Input,
  isDragging this = false ->
  moves w (events ++ [event]) this = set_mouse (normalizedPointer w event) this.
Proof.
  induction events as [|e events IH]; intros this Hd.
  - change (moves w ([] ++ [event]) this) with (onMouseMove w event this).
    apply onMouseMove_idle. auto.
  - change (moves w ((e :: events) ++ [event]) this)
      with (moves w (events ++ [event]) (onMouseMove w e this)).
    rewrite (onMouseMove_idle w e this) by auto.
    rewrite IH by exact Hd. reflexivity.
Qed.

Lemma idle_moves_store_pointer_only_witness :
  isDragging listening = false /\
  moves (chainHost 3) [canvasEvent 10 10 0; canvasEvent 700 20 0; canvasEvent 400 300 0]
        listening =
    set_mouse (normalizedPointer (chainHost 3) (canvasEvent 400 300 0)) listening.
Proof.
  split; [reflexivity|].
  exact (idle_moves_store_pointer_only (chainHost 3)
           [canvasEvent 10 10 0; canvasEvent 700 20 0] (canvasEvent 400 300 0)
           listening eq_refl).
Defined.

Lemma fraction_of_positive (a b : Q) : 0 < b -> 0 <= a -> a <= b -> 0 <= a / b /\ a / b <= 1.
Proof.
  intros Hb H0 H1. split.
  - apply Qle_shift_div_l; [exact Hb | lra].
  - apply Qle_shift_div_r; [exact Hb | lra].
Qed.

(** X4: for a pointer inside a window of positive size, the stored pointer
    has both coordinates between -1 and 1; the left edge is -1 and the right
    edge 1, the top edge is 1 and the bottom edge -1. *)
Theorem pointer_is_normalized (w : Host) (event : Event) (this : Input) :
  0 < innerWidth w -> 0 < innerHeight w ->
  0 <= clientX event -> clientX event <= innerWidth w ->
  0 <= clientY event -> clientY event <= innerHeight w ->
  let m := mouse (onMouseMove w event this) in
  (-1 <= Vector2.x m /\ Vector2.x m <= 1) /\ (-1 <= Vector2.y m /\ Vector2.y m <= 1) /\
  (clientX event == 0 -> Vector2.x m == -1) /\
  (clientX event == innerWidth w -> Vector2.x m == 1) /\
  (clientY event == 0 -> Vector2.y m == 1) /\
  (clientY event == innerHeight w -> Vector2.y m == -1).
Proof.
  intros HW HH Hx0 Hx1 Hy0 Hy1 m. unfold m. rewrite onMouseMove_mouse.
  unfold normalizedPointer. simpl.
  destruct (fraction_of_positive _ _ HW Hx0 Hx1) as (Ha & Hb).
  destruct (fraction_of_positive _ _ HH Hy0 Hy1) as (Hc & Hd).
  assert (HWn : ~ innerWidth w == 0) by lra.
  assert (HHn : ~ innerHeight w == 0) by lra.
  repeat split; try lra.
  - intros ->. field. exact HWn.
  - intros ->. field. exact HWn.
  - intros ->. field. exact HHn.
  - intros ->. field. exact HHn.
Qed.

Lemma pointer_is_normalized_witness :
  let m := mouse (onMouseMove (chainHost 3) (canvasEvent 200 600 0) listening) in
  (-1 <= Vector2.x m /\ Vector2.x m <= 1) /\ (-1 <= Vector2.y m /\ Vector2.y m <= 1).
Proof.
  destruct (pointer_is_normalized (chainHost 3) (canvasEvent 200 600 0) listening
              ltac:(reflexivity) ltac:(reflexivity) ltac:(discriminate) ltac:(discriminate)
              ltac:(discriminate) ltac:(discriminate)) as (H1 & H2 & _).
  split; [exact H1 | exact H2].
Defined.

(** ** A drag, move by move *)

Lemma onMouseMove_dragging (w : Host) (event : Event) (this : Input) :
  enabled this = true -> locked this = false -> isDragging this = true ->
  let this' := onMouseMove w event this in
  enabled this' = true /\ locked this' = false /\ isDragging this' = true /\
  rotateSpeed this' = rotateSpeed this /\
  previousMousePosition this' = Vector2.mk (clientX event) (clientY event) /\
  targetAngle this' =
    targetAngle this +
    (clientX event - Vector2.x (previousMousePosition this)) * rotateSpeed this.
Proof.
  intros He Hl Hd. unfold onMouseMove.
  change (enabled (set_mouse _ this)) with (enabled this).
  change (isDragging (set_mouse _ this)) with (isDragging this).
  change (locked (set_mouse _ this)) with (locked this).
  rewrite He, Hl, Hd. simpl. rewrite He, Hl, Hd. repeat split.
Qed.

(** X5: during a drag with a rotate speed that is not negative, pointer
    moves that never go left never turn the angle target back: after any
    number of them it is at least what it was, and the drag is still on. *)
Theorem drag_right_never_turns_back (w : Host) (events : list Event) : forall this : Input,
  enabled this = true -> locked this = false -> isDragging this = true ->
  0 <= rotateSpeed this ->
  movesRight (Vector2.x (previousMousePosition this)) events ->
  targetAngle this <= targetAngle (moves w events this) /\
  isDragging (moves w events this) = true.
Proof.
  induction events as [|e events IH]; intros this He Hl Hd Hs Hr.
  - split; [apply Qle_refl | exact Hd].
  - destruct Hr as (Hx & Hr).
    destruct (onMouseMove_dragging w e this He Hl Hd) as (He' & Hl' & Hd' & Hsp & Hp & Ha).
    change (moves w (e :: events) this) with (moves w events (onMouseMove w e this)).
    rewrite <- Hsp in Hs.
    assert (Hr' : movesRight (Vector2.x (previousMousePosition (onMouseMove w e this))) events)
      by (rewrite Hp; exact Hr).
    destruct (IH (onMouseMove w e this) He' Hl' Hd' Hs Hr') as (IH1 & IH2).
    split; [|exact IH2].
    apply Qle_trans with (targetAngle (onMouseMove w e this)); [|exact IH1].
    rewrite Ha. rewrite Hsp in Hs.
    assert (H0 : 0 <= (clientX e - Vector2.x (previousMousePosition this)) * rotateSpeed this)
      by (apply Qmult_le_0_compat; [lra | exact Hs]).
    lra.
Qed.

Lemma drag_right_never_turns_back_witness :
  movesRight (Vector2.x (previousMousePosition dragging))
             [canvasEvent 120 90 0; canvasEvent 120 300 0; canvasEvent 141 100 0] /\
  targetAngle dragging <=
    targetAngle (moves (chainHost 3)
                   [canvasEvent 120 90 0; canvasEvent 120 300 0; canvasEvent 141 100 0]
                   dragging).
Proof.
  assert (Hr : movesRight (Vector2.x (previousMousePosition dragging))
                 [canvasEvent 120 90 0; canvasEvent 120 300 0; canvasEvent 141 100 0])
    by (repeat split; discriminate).
  split; [exact Hr|].
  exact (proj1 (drag_right_never_turns_back (chainHost 3)
                  [canvasEvent 120 90 0; canvasEvent 120 300 0; canvasEvent 141 100 0]
                  dragging eq_refl eq_refl eq_refl ltac:(discriminate) Hr)).
Defined.

(** ** The release *)

(** X6: with input enabled and unlocked and the pointer on whole pixels, a
    pointer-up ends the drag, and it is a click exactly when it is on the
    canvas and the pointer is less than 5 px from the recorded down
    position: then it is handed to [processClick]; off the canvas, or at
    exactly 5 px or more, nothing is resolved.  Whether a drag is in
    progress is not looked at. *)
Theorem release_threshold (w : Host) (up : Event) (this : Input) :
  enabled this = true -> locked this = false -> onPixels up this ->
  (isEventOnCanvas up = true /\ (releaseDistance up this < 5)%R ->
   onMouseUp w up this = processClick w (set_isDragging false this)) /\
  (isEventOnCanvas up = false \/ (5 <= releaseDistance up this)%R ->
   onMouseUp w up this = (set_isDragging false this, [])).
Proof.
  intros He Hl _.
  assert (H5 : Q2R 5 = 5%R) by (change 5 with (inject_Z 5); apply Q2R_inject).
  unfold releaseDistance. split.
  - intros (Hc & H). rewrite (onMouseUp_classifies w up this He Hl Hc).
    replace (Math.sqrt_lt (dragDistance2 up this) 5) with true; [reflexivity|].
    symmetry. apply sqrt_lt_distance. now rewrite H5.
  - intros H. destruct (isEventOnCanvas up) eqn:Hc.
    + destruct H as [H | H]; [discriminate|].
      rewrite (onMouseUp_classifies w up this He Hl Hc).
      destruct (Math.sqrt_lt (dragDistance2 up this) 5) eqn:E; [|reflexivity].
      apply sqrt_lt_distance in E. rewrite H5 in E. lra.
    + unfold onMouseUp. now rewrite He, Hl, Hc.
Qed.

Lemma integral_inject (z : Z) : integral (inject_Z z).
Proof. exists z. reflexivity. Qed.

Lemma releaseDistance_square (up : Event) (this : Input) (d : Q) :
  0 <= d -> dragDistance2 up this == d * d -> releaseDistance up this = Q2R d.
Proof.
  intros Hd H. unfold releaseDistance. rewrite (Qeq_eqR _ _ H), Q2R_mult.
  apply sqrt_square. replace 0%R with (Q2R 0) by (unfold Q2R; simpl; field).
  now apply Qle_Rle.
Qed.

Lemma release_threshold_witness :
  onPixels (canvasEvent 3 4 0) listening /\
  releaseDistance (canvasEvent 3 4 0) listening = 5%R /\
  onMouseUp (chainHost 3) (canvasEvent 3 4 0) listening = (set_isDragging false listening, []).
Proof.
  assert (Hp : onPixels (canvasEvent 3 4 0) listening).
  { repeat split; [apply (integral_inject 3) | apply (integral_inject 4)
                   | apply (integral_inject 0) | apply (integral_inject 0)]. }
  assert (H : releaseDistance (canvasEvent 3 4 0) listening = 5%R).
  { rewrite (releaseDistance_square _ _ 5); [apply (Q2R_inject 5) | discriminate | reflexivity]. }
  split; [exact Hp|]. split; [exact H|].
  apply (proj2 (release_threshold (chainHost 3) (canvasEvent 3 4 0) listening
                  eq_refl eq_refl Hp)).
  right. rewrite H. apply Rle_refl.
Defined.

(** A release 4 px away with no drag in progress is a click all the same. *)
Example click_without_drag :
  isDragging listening = false /\
  onMouseUp (chainHost 3) (canvasEvent 0 4 0) listening = (listening, [Call 7%nat 3%nat]).
Proof. vm_compute. split; reflexivity. Qed.

(** A release on an overlay button at the very place of the pointer-down. *)
Example release_on_overlay :
  onMouseUp (chainHost 3) (overlayEvent 100 100) dragging = (set_isDragging false dragging, []).
Proof. reflexivity. Qed.

(** ** Closed gates *)

Lemma set_mouse_same (this : Input) : set_mouse (mouse this) this = this.
Proof. now destruct this. Qed.

(** X7: while input is disabled or locked and no drag is in progress, a
    pointer or wheel event has no effect and changes nothing but the stored
    pointer: no target moves, no drag starts, no callback is called and the
    default action of a wheel event is not suppressed. *)
Theorem closed_gates_are_inert (fuel : nat) (w : Host) (op : Op) (this this' : Input) out :
  enabled this = false \/ locked this = true ->
  isDragging this = false ->
  isInputEvent op = true ->
  run fuel w op this = Some (this', out) ->
  out = [] /\ this' = set_mouse (mouse this') this.
Proof.
  intros Hg Hd Hop.
  assert (Hc : negb (enabled this) || locked this = true)
    by (destruct Hg as [-> | ->]; [reflexivity | now rewrite orb_true_r]).
  destruct op as [b | b | v | v | f | e | e | e | e | | t]; try discriminate Hop;
    simpl; intros H.
  - injection H as <- <-. unfold onMouseDown. rewrite Hc.
    split; [reflexivity | now rewrite set_mouse_same].
  - injection H as <- <-. split; [reflexivity|].
    rewrite onMouseMove_idle by auto. reflexivity.
  - assert (Hup : onMouseUp w e this = (this, [])).
    { unfold onMouseUp. destruct (enabled this) eqn:He; simpl; [|reflexivity].
      destruct Hg as [Hg | Hg]; [discriminate|]. rewrite Hg.
      now rewrite <- Hd, set_isDragging_same. }
    rewrite Hup in H. injection H as <- <-.
    split; [reflexivity | now rewrite set_mouse_same].
  - assert (Hwh : onWheel e this = (this, [])) by (unfold onWheel; now rewrite Hc).
    rewrite Hwh in H. injection H as <- <-.
    split; [reflexivity | now rewrite set_mouse_same].
Qed.

Lemma closed_gates_are_inert_witness :
  locked (setLocked true dragging) = true /\
  snd (onWheel (canvasEvent 0 0 100) (setLocked true dragging)) = [].
Proof.
  split; [reflexivity|].
  exact (proj1 (closed_gates_are_inert 0 (chainHost 3) (Wheel (canvasEvent 0 0 100))
                  (setLocked true dragging)
                  (fst (onWheel (canvasEvent 0 0 100) (setLocked true dragging)))
                  (snd (onWheel (canvasEvent 0 0 100) (setLocked true dragging)))
                  (or_intror eq_refl) eq_refl eq_refl eq_refl)).
Defined.

(** ** What the resolver can do *)

(** X8: [processClick] never changes the controller, and it has at most one
    effect: a call of the registered callback.  When it calls, the argument
    is a flagged node, it is the nearest hit's node or one of its ancestors
    at most four links above it, and no node below it on that chain is
    flagged. *)
Theorem processClick_sound (w : Host) (this : Input) :
  fst (processClick w this) = this /\
  (snd (processClick w this) = [] \/
   exists cam hit rest f a k,
     camera (sceneSetup w) = Some cam /\
     intersectObjects w (mouse this) cam (getInteractableObjects (sceneSetup w)) = hit :: rest /\
     onObjectClicked this = Some f /\ (k < 5)%nat /\
     nearestFlagged (heap w) (object hit) k a /\
     snd (processClick w this) = [Call f a]).
Proof.
  unfold processClick.
  destruct (camera (sceneSetup w)) as [cam|] eqn:Hcam; [|split; [reflexivity | now left]].
  destruct (intersectObjects w (mouse this) cam (getInteractableObjects (sceneSetup w)))
    as [|hit rest] eqn:Hhit; [split; [reflexivity | now left]|].
  destruct (findInteractable (heap w) 5 (Some (object hit))) as [a|] eqn:Hfind;
    [|split; [reflexivity | now left]].
  destruct (onObjectClicked this) as [f|] eqn:Hf; [|split; [reflexivity | now left]].
  split; [reflexivity|]. right.
  destruct (findInteractable_sound _ _ _ _ Hfind) as (k & Hk & Hn).
  exists cam, hit, rest, f, a, k. repeat split; auto; apply Hn.
Qed.

(** ** The wheel at the limits *)

(** X9: a wheel event that is handled (input enabled and unlocked, on the
    canvas), with the limits in order, moves the radius target by
    [deltaY * zoomSpeed] when that stays within the limits and stops it at
    the limit it would cross otherwise. *)
Theorem wheel_saturates (event : Event) (this : Input) :
  enabled this = true -> locked this = false -> isEventOnCanvas event = true ->
  minRadius this <= maxRadius this ->
  let wanted := targetRadius this + deltaY event * zoomSpeed this in
  let got := targetRadius (fst (onWheel event this)) in
  (minRadius this <= wanted -> wanted <= maxRadius this -> got == wanted) /\
  (maxRadius this <= wanted -> got == maxRadius this) /\
  (wanted <= minRadius this -> got == minRadius this).
Proof.
  intros He Hl Hc Hm wanted got.
  assert (Hg : got = Math.max (minRadius this) (Math.min (maxRadius this) wanted)).
  { unfold got, onWheel. rewrite He, Hl, Hc. reflexivity. }
  rewrite Hg. unfold Math.max, Math.min. repeat split.
  - intros H1 H2. rewrite (Q.min_r _ _ H2). now apply Q.max_r.
  - intros H. rewrite (Q.min_l _ _ H). now apply Q.max_r.
  - intros H. apply Q.max_l. apply Qle_trans with wanted; [apply Q.le_min_r | exact H].
Qed.

Lemma wheel_saturates_witness :
  targetRadius (fst (onWheel (canvasEvent 0 0 1000) listening)) == 600 /\
  targetRadius (fst (onWheel (canvasEvent 0 0 (-1000)) listening)) == 150.
Proof.
  split.
  - apply (wheel_saturates (canvasEvent 0 0 1000) listening eq_refl eq_refl eq_refl
             ltac:(discriminate)). discriminate.
  - apply (wheel_saturates (canvasEvent 0 0 (-1000)) listening eq_refl eq_refl eq_refl
             ltac:(discriminate)). discriminate.
Defined.

(** ** Frames: no overshoot *)

Lemma between_bounds (lo hi a b x : Q) :
  lo <= a -> a <= hi -> lo <= b -> b <= hi -> between a b x -> lo <= x /\ x <= hi.
Proof.
  intros Ha1 Ha2 Hb1 Hb2 (H1 & H2). split.
  - apply Qle_trans with (Qmin a b); [now apply Q.min_glb | exact H1].
  - apply Qle_trans with (Qmax a b); [exact H2 | now apply Q.max_lub].
Qed.

(** Linear interpolation by a factor from 0 to 1 stays between its ends. *)
Lemma lerp_between (c t f : Q) :
  0 <= f -> f <= 1 -> between c t (c + (t - c) * f).
Proof.
  intros H0 H1. unfold between.
  destruct (Qlt_le_dec t c) as [H|H].
  - rewrite (Q.min_r c t) by lra. rewrite (Q.max_l c t) by lra. split; nra.
  - rewrite (Q.min_l c t) by lra. rewrite (Q.max_r c t) by lra. split; nra.
Qed.

Lemma lerpFactor_range (now : Q) (this : Input) :
  dampingFactor this == 5 -> lastTime this <= now ->
  0 <= frameLerpFactor now this /\ frameLerpFactor now this <= 1 # 2.
Proof.
  intros H5 Hclock. unfold frameLerpFactor. rewrite H5.
  assert (H1 := frameDt_le now this). assert (H0 := frameDt_nonneg now this Hclock).
  split; lra.
Qed.

(** X10: a frame that runs (on a difference of angles within [angleRange]),
    with the damping factor 5 of the constructor and a clock that does not
    go back, moves the current radius, height and look-at point towards
    their targets and never past them: [lerpFactor] is between 0 and 1/2,
    and each new value lies between the old value and the target. *)
Theorem update_no_overshoot (w : Host) (now : Q) (this : Input) cam (fuel : nat) :
  camera (sceneSetup w) = Some cam ->
  dampingFactor this == 5 -> lastTime this <= now ->
  angleResolved this ->
  (angleFuel (targetAngle this - currentAngle this) <= fuel)%nat ->
  exists this',
    update fuel w now this = Some this' /\
    (0 <= frameLerpFactor now this /\ frameLerpFactor now this <= 1 # 2) /\
    between (currentRadius this) (targetRadius this) (currentRadius this') /\
    between (currentHeight this) (targetHeight this) (currentHeight this') /\
    between (Vector3.x (currentLook this)) (Vector3.x (targetLook this))
            (Vector3.x (currentLook this')) /\
    between (Vector3.y (currentLook this)) (Vector3.y (targetLook this))
            (Vector3.y (currentLook this')) /\
    between (Vector3.z (currentLook this)) (Vector3.z (targetLook this))
            (Vector3.z (currentLook this')).
Proof.
  intros Hcam H5 Hclock _ Hfuel.
  destruct (update_runs w now this cam fuel Hcam Hfuel)
    as (d & this' & _ & Hu & _ & _ & Eh & Er & El).
  destruct (lerpFactor_range now this H5 Hclock) as (H0 & H1).
  exists this'. split; [exact Hu|].
  rewrite Er, Eh, El. unfold Vector3.lerp. simpl.
  repeat split; try exact H0; try exact H1; apply lerp_between; lra.
Qed.

Lemma zooming_angleResolved : angleResolved zooming.
Proof. apply angleResolved_small. reflexivity. Qed.

Lemma update_no_overshoot_witness :
  exists this',
    update 0 (chainHost 3) 16 zooming = Some this' /\
    between 400 (targetRadius zooming) (currentRadius this') /\
    ~ currentRadius this' == 400.
Proof.
  destruct (update_no_overshoot (chainHost 3) 16 zooming 9%nat 0
              eq_refl ltac:(reflexivity) ltac:(discriminate) zooming_angleResolved
              ltac:(reflexivity))
    as (this' & Hu & _ & Hb & _).
  exists this'. split; [exact Hu|]. split; [exact Hb|].
  vm_compute in Hu. injection Hu as <-. discriminate.
Defined.

Lemma run_currents (fuel : nat) (w : Host) (op : Op) (this this' : Input) out :
  run fuel w op this = Some (this', out) ->
  (exists now, op = Update now) \/
  (currentRadius this' = currentRadius this /\ currentHeight this' = currentHeight this).
Proof.
  destruct op as [isEnabled | isLocked | vec3 | vec3 | f | event | event | event | event | | t];
    simpl; intros H; [right .. | left; eauto].
  - injection H as <- <-. unfold setEnabled. destruct isEnabled; simpl; tauto.
  - injection H as <- <-. unfold setLocked. simpl. tauto.
  - injection H as <- <-. simpl. tauto.
  - destruct vec3; injection H as <- <-; simpl; tauto.
  - injection H as <- <-. simpl. tauto.
  - injection H as <- <-. unfold onMouseDown.
    destruct (negb (enabled this) || locked this); [tauto|].
    destruct (negb (isEventOnCanvas event)); [tauto|].
    destruct (negb (button event =? 0)%Z && negb (button event =? 2)%Z); simpl; tauto.
  - injection H as <- <-. unfold onMouseMove.
    destruct (negb (enabled (set_mouse _ this)) || negb (isDragging (set_mouse _ this))
              || locked (set_mouse _ this)); simpl; tauto.
  - unfold onMouseUp, processClick in H.
    destruct (negb (enabled this)); [injection H as <- <-; tauto|].
    destruct (locked this); [injection H as <- <-; simpl; tauto|].
    destruct (negb (isEventOnCanvas event)); [injection H as <- <-; simpl; tauto|].
    destruct (Math.sqrt_lt _ _); [|injection H as <- <-; simpl; tauto].
    destruct (camera (sceneSetup w)); [|injection H as <- <-; simpl; tauto].
    destruct (intersectObjects _ _ _ _); [injection H as <- <-; simpl; tauto|].
    destruct (findInteractable _ _ _); [|injection H as <- <-; simpl; tauto].
    change (onObjectClicked (set_isDragging false this)) with (onObjectClicked this) in H.
    destruct (onObjectClicked this); injection H as <- <-; simpl; tauto.
  - unfold onWheel in H.
    destruct (negb (enabled this) || locked this); [injection H as <- <-; tauto|].
    destruct (negb (isEventOnCanvas event)); injection H as <- <-; simpl; tauto.
  - unfold processClick in H.
    destruct (camera (sceneSetup w)); [|injection H as <- <-; tauto].
    destruct (intersectObjects _ _ _ _); [injection H as <- <-; tauto|].
    destruct (findInteractable _ _ _); [|injection H as <- <-; tauto].
    destruct (onObjectClicked this); injection H as <- <-; tauto.
Qed.

Lemma update_currents (fuel : nat) (w : Host) (now : Q) (this this' : Input) :
  update fuel w now this = Some this' ->
  this' = this \/
  (currentRadius this' =
     currentRadius this + (targetRadius this - currentRadius this) * frameLerpFactor now this /\
   currentHeight this' =
     currentHeight this + (targetHeight this - currentHeight this) * frameLerpFactor now this).
Proof.
  unfold update. destruct (camera (sceneSetup w)); [|intros [= <-]; now left].
  destruct (normalizeAngle _ _); [|discriminate]. intros [= <-]. right. split; reflexivity.
Qed.

(** X11: with the damping factor of the constructor and a clock that does
    not go back, the limits hold for the current radius and height as well
    as for the targets, and every operation keeps it so: the camera never
    leaves the range the targets are clamped to. *)
Theorem orbit_stays_in_range (w : Host) (this : Input) (op : Op) (this' : Input) out :
  orbitInRange this -> dampingFactor this == 5 -> clockAdvances op this ->
  step w this op this' out -> orbitInRange this'.
Proof.
  intros (Ht & (Hr1 & Hr2) & (Hh1 & Hh2)) H5 Hclock (fuel & Hrun).
  destruct (run_limits fuel w op this this' out Hrun)
    as ((E1 & E2 & E3 & E4 & _) & Hr & Hh).
  assert (Ht' : targetsInRange this').
  { destruct Ht as ((A1 & A2) & (B1 & B2)).
    unfold targetsInRange. rewrite E1, E2, E3, E4. split.
    - destruct Hr as [-> | (v & ->)]; [tauto|]. apply clamp_range. lra.
    - destruct Hh as [-> | (v & ->)]; [tauto|]. apply clamp_range. lra. }
  split; [exact Ht'|]. rewrite E1, E2, E3, E4.
  destruct (run_currents fuel w op this this' out Hrun) as [(now & ->) | (-> & ->)]; [|tauto].
  simpl in Hrun, Hclock.
  destruct (update fuel w now this) as [s|] eqn:Hu; [|discriminate].
  injection Hrun as <- <-.
  destruct (update_currents fuel w now this s Hu) as [-> | (-> & ->)]; [tauto|].
  destruct (lerpFactor_range now this H5 Hclock) as (H0 & H1).
  destruct Ht as ((A1 & A2) & (B1 & B2)).
  split.
  - apply (between_bounds _ _ (currentRadius this) (targetRadius this)); auto.
    apply lerp_between; lra.
  - apply (between_bounds _ _ (currentHeight this) (targetHeight this)); auto.
    apply lerp_between; lra.
Qed.

Lemma constructor_orbitInRange (now : Q) : orbitInRange (constructor now).
Proof. repeat split; discriminate. Qed.

Lemma zooming_orbitInRange : orbitInRange zooming.
Proof. repeat split; discriminate. Qed.

Lemma orbit_stays_in_range_witness :
  orbitInRange zooming /\ ~ targetRadius zooming == currentRadius zooming /\
  exists this',
    update 0 (chainHost 3) 16 zooming = Some this' /\ orbitInRange this' /\
    ~ currentRadius this' == currentRadius zooming.
Proof.
  split; [exact zooming_orbitInRange|]. split; [discriminate|].
  destruct (update_runs (chainHost 3) 16 zooming 9%nat 0 eq_refl
              ltac:(reflexivity)) as (d & this' & _ & Hu & _).
  exists this'. split; [exact Hu|]. split.
  - apply (orbit_stays_in_range (chainHost 3) zooming (Update 16) this' []
             zooming_orbitInRange ltac:(reflexivity) ltac:(discriminate)).
    exists 0%nat. unfold run. now rewrite Hu.
  - vm_compute in Hu. injection Hu as <-. discriminate.
Defined.

(** ** Frames: at rest *)

Lemma normalizeAngle_in_range (fuel : nat) (d : Q) :
  - Math.PI <= d -> d <= Math.PI -> normalizeAngle fuel d = Some d.
Proof.
  intros Hlo Hhi. unfold normalizeAngle.
  assert (Ha : whileAbove fuel d = Some d).
  { destruct fuel; cbn [whileAbove]; apply Qlt_bool_false in Hhi; now rewrite Hhi. }
  rewrite Ha.
  destruct fuel; cbn [whileBelow]; apply Qlt_bool_false in Hlo; now rewrite Hlo.
Qed.

(** X12: a controller at rest stays at rest: when the current angle, radius,
    height and look-at point equal their targets, a frame returns with any
    fuel and leaves them at those values, whatever the clock and the damping
    factor are. *)
Theorem update_at_rest (fuel : nat) (w : Host) (now : Q) (this : Input) :
  targetAngle this == currentAngle this ->
  targetRadius this == currentRadius this ->
  targetHeight this == currentHeight this ->
  Vector3.equiv (targetLook this) (currentLook this) ->
  exists this',
    update fuel w now this = Some this' /\
    currentAngle this' == currentAngle this /\
    currentRadius this' == currentRadius this /\
    currentHeight this' == currentHeight this /\
    Vector3.equiv (currentLook this') (currentLook this).
Proof.
  intros Ha Hr Hh (Hx & Hy & Hz).
  unfold update. destruct (camera (sceneSetup w)).
  - change (targetAngle (set_lastTime now this)) with (targetAngle this).
    change (currentAngle (set_lastTime now this)) with (currentAngle this).
    assert (HP := PI_pos).
    rewrite normalizeAngle_in_range by lra.
    eexists. split; [reflexivity|]. unfold Vector3.equiv, Vector3.lerp. simpl.
    rewrite Ha, Hr, Hh, Hx, Hy, Hz. repeat split; ring.
  - exists this. unfold Vector3.equiv. repeat split; reflexivity.
Qed.

Lemma update_at_rest_witness :
  exists this',
    update 0 (chainHost 3) 123456 listening = Some this' /\
    currentAngle this' == 78 # 100 /\ currentRadius this' == 400.
Proof.
  destruct (update_at_rest 0 (chainHost 3) 123456 listening
              ltac:(reflexivity) ltac:(reflexivity) ltac:(reflexivity)
              ltac:(repeat split; reflexivity)) as (this' & Hu & Ha & Hr & _).
  exists this'. split; [exact Hu|]. split; [exact Ha | exact Hr].
Defined.

(** ** Frames: the angle step *)

(** X13: in a frame that runs (on a difference of angles within
    [angleRange]), with the damping factor of the constructor and a clock
    that does not go back, the step [d * lerpFactor] that is added to the
    current angle goes the way of the normalized difference [d] and is at
    most half of it: it lies between 0 and [d], and is a quarter turn at
    most. *)
Theorem update_angle_step (w : Host) (now : Q) (this : Input) cam (fuel : nat) :
  camera (sceneSetup w) = Some cam ->
  dampingFactor this == 5 -> lastTime this <= now ->
  angleResolved this ->
  (angleFuel (targetAngle this - currentAngle this) <= fuel)%nat ->
  exists this' d,
    update fuel w now this = Some this' /\
    normalizeAngle fuel (targetAngle this - currentAngle this) = Some d /\
    currentAngle this' = currentAngle this + d * frameLerpFactor now this /\
    between 0 d (d * frameLerpFactor now this) /\
    Qabs (d * frameLerpFactor now this) <= Qabs d * (1 # 2) /\
    Qabs (d * frameLerpFactor now this) <= Math.PI * (1 # 2).
Proof.
  intros Hcam H5 Hclock _ Hfuel.
  destruct (update_runs w now this cam fuel Hcam Hfuel)
    as (d & this' & Hd & Hu & _ & Ea & _).
  destruct (normalizeAngle_spec fuel _ (angleFuel_enough _ _ Hfuel))
    as (d' & k & Hd' & _ & Hlo & Hhi).
  rewrite Hd in Hd'. injection Hd' as <-.
  destruct (lerpFactor_range now this H5 Hclock) as (H0 & H1).
  set (f := frameLerpFactor now this) in *.
  assert (Habs : Qabs d <= Math.PI) by (apply Qabs_Qle_condition; split; lra).
  assert (Hn := Qabs_nonneg d).
  assert (Hstep : Qabs (d * f) <= Qabs d * (1 # 2)).
  { rewrite Qabs_Qmult, (Qabs_pos f) by exact H0. nra. }
  exists this', d. split; [exact Hu|]. split; [exact Hd|]. split; [exact Ea|].
  split; [|split; [exact Hstep | lra]].
  assert (Hb : between 0 d (0 + (d - 0) * f)) by (apply lerp_between; lra).
  unfold between in *. assert (He : 0 + (d - 0) * f == d * f) by ring.
  rewrite He in Hb. exact Hb.
Qed.

Lemma update_angle_step_witness :
  exists this' d,
    update 1 (chainHost 3) 16 halfTurnBehind = Some this' /\
    currentAngle this' = currentAngle halfTurnBehind + d * frameLerpFactor 16 halfTurnBehind /\
    between 0 d (d * frameLerpFactor 16 halfTurnBehind) /\ d < 0.
Proof.
  destruct (update_angle_step (chainHost 3) 16 halfTurnBehind 9%nat 1
              eq_refl ltac:(reflexivity) ltac:(discriminate)
              ltac:(apply angleResolved_small; reflexivity)
              ltac:(apply Nat.leb_le; vm_compute; reflexivity))
    as (this' & d & Hu & Hd & Ea & Hb & _).
  exists this', d. split; [exact Hu|]. split; [exact Ea|]. split; [exact Hb|].
  vm_compute in Hd. injection Hd as <-. reflexivity.
Defined.

(** * The registry of interactable nodes *)

Lemma keep_other (o x : ref) :
  negb (bool_decide (Some x = Some o)) = true <-> x <> o.
Proof.
  rewrite negb_true_iff, bool_decide_eq_false. split; intros H E; apply H; congruence.
Qed.

Lemma unregister_In (o x : ref) (this : SceneSetup) :
  In x (interactableObjects (unregisterInteractable (Some o) this)) <->
  In x (interactableObjects this) /\ x <> o.
Proof. unfold unregisterInteractable. simpl. rewrite filter_In, keep_other. tauto. Qed.

Lemma filter_absent (o : ref) (l : list ref) :
  ~ In o l -> List.filter (fun obj => negb (bool_decide (Some obj = Some o))) l = l.
Proof.
  induction l as [|x l IH]; intros H; simpl; [reflexivity|].
  assert (Hx : x <> o) by (intros ->; apply H; now left).
  apply keep_other in Hx. rewrite Hx. f_equal. apply IH. intros Hin. apply H. now right.
Qed.

(** X14: as long as the flags of the scene nodes stay as they are, every
    node in the registry is flagged: registering adds flagged nodes only
    ([null] and unflagged nodes are ignored) and unregistering adds none. *)
Theorem registry_holds_flagged_nodes (h : gmap ref Object3D) (ops : list RegistryOp)
    (this : SceneSetup) :
  Forall (fun o => isFlagged h o = true) (interactableObjects this) ->
  Forall (fun o => isFlagged h o = true)
         (interactableObjects (fold_left (fun s op => runRegistry h op s) ops this)).
Proof.
  revert this. induction ops as [|op ops IH]; intros this H; simpl; [exact H|].
  apply IH. destruct op as [[o|] | o]; simpl.
  - destruct (isFlagged h o) eqn:E; [|exact H]. simpl.
    apply Forall_app. split; [exact H | repeat constructor; exact E].
  - exact H.
  - rewrite List.Forall_forall in *. intros x Hx. apply filter_In in Hx as (Hx & _). now apply H.
Qed.

Lemma registry_holds_flagged_nodes_witness :
  Forall (fun o => isFlagged (chainHeap 3) o = true)
         (interactableObjects
            (fold_left (fun s op => runRegistry (chainHeap 3) op s)
               [Register (Some 3%nat); Register (Some 2%nat); Register None;
                Unregister (Some 5%nat)] newSceneSetup)).
Proof.
  exact (registry_holds_flagged_nodes (chainHeap 3)
           [Register (Some 3%nat); Register (Some 2%nat); Register None;
            Unregister (Some 5%nat)] newSceneSetup (List.Forall_nil _)).
Defined.

(** X15: registering does not look for duplicates, and unregistering a node
    removes every entry of it and nothing else: after it the node is not in
    the registry however often it was registered, and registering a node
    that was not there and unregistering it again gives the registry back. *)
Theorem unregister_undoes_register (h : gmap ref Object3D) (o : ref) (this : SceneSetup) :
  ~ In o (interactableObjects
            (unregisterInteractable (Some o)
               (registerInteractable h (Some o) (registerInteractable h (Some o) this)))) /\
  (isFlagged h o = true ->
   interactableObjects (registerInteractable h (Some o) (registerInteractable h (Some o) this))
   = interactableObjects this ++ [o; o]) /\
  (~ In o (interactableObjects this) ->
   unregisterInteractable (Some o) (registerInteractable h (Some o) this) = this).
Proof.
  split; [|split].
  - rewrite unregister_In. tauto.
  - intros Hf. unfold registerInteractable. rewrite Hf. simpl.
    now rewrite <- app_assoc.
  - intros Hn. unfold registerInteractable, unregisterInteractable.
    destruct this as [cam l]. simpl in *.
    destruct (isFlagged h o); simpl.
    + rewrite List.filter_app, (filter_absent o l Hn). simpl.
      rewrite bool_decide_eq_true_2 by reflexivity. simpl. now rewrite app_nil_r.
    + now rewrite (filter_absent o l Hn).
Qed.

(** Unregistering [null] keeps every entry. *)
Lemma unregister_null (this : SceneSetup) :
  unregisterInteractable None this = this.
Proof.
  destruct this as [cam l]. unfold unregisterInteractable. simpl. f_equal.
  induction l as [|x l IH]; simpl; [reflexivity|]. now rewrite IH.
Qed.

(** * The atmosphere *)

Module AtmosphereFacts.
Import Atmosphere.

Lemma truthy_truthy (c : option Z) : truthy (truthy c) = truthy c.
Proof.
  destruct c as [v|]; simpl; [|reflexivity].
  destruct (v =? 0)%Z eqn:E; simpl; [reflexivity | now rewrite E].
Qed.

(** X16: a colour of zero (black) counts as absent: for the fog, the sky
    and the ground colour, [updateAtmosphere] does with a parameter of 0
    what it does without the parameter, in every state. *)
Theorem black_is_ignored (params : Params) (this : t) :
  updateAtmosphere params this = updateAtmosphere (withoutBlack params) this.
Proof.
  unfold updateAtmosphere, updateFogColor, updateRest, withoutBlack. simpl.
  now rewrite !truthy_truthy.
Qed.

(** A storm with a black sky light: the sky colour stays as it was, while
    the fog distance 0 and the rest are assigned. *)
Example storm_after_init :
  updateAtmosphere storm (init constructor) =
  Returned
    {| scene := Some {| background := 0x223344%Z |};
       fog :=
         Some {| fogColor := 0x223344%Z; near := 0;
                 far := 900 |};
       hemiLight :=
         Some {| color := 0xffffff%Z; groundColor := 0x101010%Z |};
       dirLight := Some {| intensity := 3 # 10 |} |}.
Proof. reflexivity. Qed.

(** X17: [updateAtmosphere] does not throw in the states [SceneSetup] can
    be in.  Before [init()] there is no fog and there are no lights, and it
    does nothing, whatever the parameters.  Once the scene is initialised
    the background has the colour of the fog, and it returns a state in
    which the two colours are equal again. *)
Theorem horizon_stays_seamless (params : Params) (this : t) :
  updateAtmosphere params constructor =
    Returned constructor /\
  seamless (init this) /\
  (seamless this ->
   exists this',
     updateAtmosphere params this = Returned this' /\
     seamless this').
Proof.
  split; [|split; [reflexivity|]].
  - unfold updateAtmosphere, updateFogColor, updateRest.
    simpl.
    destruct (truthy (p_fogColor params)),
      (p_fogNear params), (p_fogFar params); reflexivity.
  - unfold seamless, updateAtmosphere, updateFogColor,
      updateRest.
    destruct this as [[s|] [f|] hemi dir]; simpl; try tauto.
    intros H.
    destruct (truthy (p_fogColor params)) as [c|]; simpl;
      eexists; (split; [reflexivity|]); simpl;
      destruct (p_fogNear params), (p_fogFar params); simpl; auto.
Qed.

Lemma horizon_stays_seamless_witness :
  seamless (init constructor) /\
  exists this',
    updateAtmosphere storm (init constructor) = Returned this' /\
    seamless this'.
Proof.
  split; [reflexivity|].
  exact (proj2 (proj2 (horizon_stays_seamless storm
                         (init constructor))) eq_refl).
Defined.

(** X18: [updateAtmosphere] assigns, it does not accumulate: calling it a
    second time with the same parameters changes nothing. *)
Theorem updateAtmosphere_idempotent (params : Params) (this this' : t) :
  updateAtmosphere params this = Returned this' ->
  updateAtmosphere params this' = Returned this'.
Proof.
  unfold updateAtmosphere, updateFogColor, updateRest.
  destruct this as [s f hemi dir].
  destruct (truthy (p_fogColor params)) as [c|] eqn:Ec; simpl.
  - destruct f as [f|]; simpl.
    + destruct s as [s|]; simpl; [|discriminate]. intros [= <-]. simpl.
      destruct (p_fogNear params), (p_fogFar params), hemi as [l|], dir as [i|],
        (truthy (p_skyColor params)), (truthy (p_groundColor params)),
        (p_sunIntensity params); reflexivity.
    + intros [= <-]. simpl.
      destruct hemi as [l|], dir as [i|],
        (truthy (p_skyColor params)), (truthy (p_groundColor params)),
        (p_sunIntensity params), (p_fogNear params), (p_fogFar params); reflexivity.
  - intros [= <-]. simpl.
    destruct f as [f|], (p_fogNear params), (p_fogFar params), hemi as [l|], dir as [i|],
      (truthy (p_skyColor params)), (truthy (p_groundColor params)),
      (p_sunIntensity params); reflexivity.
Qed.

Lemma updateAtmosphere_idempotent_witness :
  exists this',
    updateAtmosphere storm (init constructor) = Returned this' /\
    updateAtmosphere storm this' = Returned this'.
Proof.
  eexists. split; [reflexivity|].
  exact (updateAtmosphere_idempotent storm (init constructor) _ eq_refl).
Defined.

End AtmosphereFacts.

(** * The water *)

Module WaterFacts.
Import Water.

Lemma water_update_initialised (time : Q) (this : t) m :
  material this = Some m ->
  let this' := update time this in
  material this' = Some {| uTime := time |} /\
  colorsHealthy this' = colorsHealthy this /\
  colorsDead this' = colorsDead this /\
  targetHealth this' = targetHealth this /\
  currentHealth this' =
    currentHealth this +
    (targetHealth this - currentHealth this) * lerpSpeed /\
  uniformColors this' =
    uniformColors (updateColors (currentHealth this') this).
Proof.
  intros Hm. unfold update. rewrite Hm. repeat split.
Qed.

Lemma lerpSpeed_range : 0 <= lerpSpeed /\ lerpSpeed <= 1.
Proof. split; discriminate. Qed.

(** A frame keeps the current health a fraction. *)
Lemma update_keeps_fraction (time : Q) (this : t) :
  healthInRange this -> healthInRange (update time this).
Proof.
  intros ((Hc0 & Hc1) & (Ht0 & Ht1)). unfold healthInRange, update.
  destruct (material this); simpl; [|tauto]. split; [|tauto].
  destruct lerpSpeed_range as (H0 & H1).
  apply (between_bounds 0 1 (currentHealth this) (targetHealth this)); auto.
  now apply lerp_between.
Qed.

(** X19: the two health values of the water are fractions and stay so:
    if both are between 0 and 1, they still are after the water is
    initialised, after a frame, after a phase change, and after a statistics
    event whose stock limit is not zero, whatever stock it reports. *)
Theorem health_stays_fraction (op : Op) (this : t) :
  healthInRange this -> divides op ->
  healthInRange (run op this).
Proof.
  intros ((Hc0 & Hc1) & (Ht0 & Ht1)) _. unfold healthInRange.
  destruct op as [| stats | data | time]; simpl.
  - tauto.
  - split; [tauto|]. apply (clamp_range (fishStock stats / maxFishStock stats) 0 1).
    discriminate.
  - unfold onPhaseChanged. destruct (String.eqb _ _); simpl; [|tauto].
    split; [tauto|]. split; [apply Qle_refl | discriminate].
  - unfold update. destruct (material this); simpl; [|tauto].
    split; [|tauto].
    destruct lerpSpeed_range as (H0 & H1).
    apply (between_bounds 0 1 (currentHealth this) (targetHealth this)); auto.
    now apply lerp_between.
Qed.

Lemma fresh_healthInRange : healthInRange fresh.
Proof. repeat split; discriminate. Qed.

Lemma health_stays_fraction_witness :
  healthInRange
    (run (StatsUpdated {| fishStock := 1200; maxFishStock := 1000 |})
               fresh).
Proof.
  exact (health_stays_fraction
           (StatsUpdated {| fishStock := 1200; maxFishStock := 1000 |})
           fresh fresh_healthInRange ltac:(discriminate)).
Defined.

(** X20: with a positive stock limit, a statistics event sets the target
    health to the fraction of the stock that is left, and to 1 when the
    stock is above the limit and 0 when it is negative. *)
Theorem stats_set_the_target (stats : Stats) (this : t) :
  0 < maxFishStock stats ->
  let ratio := fishStock stats / maxFishStock stats in
  let target := targetHealth (onStatsUpdated stats this) in
  (0 <= fishStock stats -> fishStock stats <= maxFishStock stats ->
   target == ratio) /\
  (maxFishStock stats <= fishStock stats -> target == 1) /\
  (fishStock stats <= 0 -> target == 0).
Proof.
  intros Hm ratio target.
  assert (Ht : target = Math.max 0 (Math.min 1 ratio)) by reflexivity.
  rewrite Ht. unfold Math.max, Math.min. repeat split.
  - intros H0 H1. destruct (fraction_of_positive _ _ Hm H0 H1) as (Ha & Hb). fold ratio in Ha, Hb.
    rewrite (Q.min_r _ _ Hb). now apply Q.max_r.
  - intros H. assert (Hr : 1 <= ratio) by (apply Qle_shift_div_l; [exact Hm | lra]).
    rewrite (Q.min_l _ _ Hr). apply Q.max_r. discriminate.
  - intros H. assert (Hr : ratio <= 0) by (apply Qle_shift_div_r; [exact Hm | lra]).
    apply Q.max_l. apply Qle_trans with ratio; [apply Q.le_min_r | exact Hr].
Qed.

Lemma stats_set_the_target_witness :
  targetHealth
    (onStatsUpdated {| fishStock := 250; maxFishStock := 1000 |} fresh)
  == 250 / 1000.
Proof.
  apply (stats_set_the_target {| fishStock := 250; maxFishStock := 1000 |}
           fresh eq_refl); discriminate.
Defined.

(** X21: the target health is what the last event says: a statistics event
    after a collapse, or after another statistics event, overrides it, and
    a phase change other than to COLLAPSE changes nothing. *)
Theorem last_event_sets_the_target (stats : Stats) (data : PhaseData)
    (this : t) :
  onStatsUpdated stats (onPhaseChanged data this) =
    onStatsUpdated stats this /\
  (forall earlier,
     onStatsUpdated stats (onStatsUpdated earlier this) =
     onStatsUpdated stats this) /\
  (phaseId data <> "COLLAPSE"%string -> onPhaseChanged data this = this) /\
  (phaseId data = "COLLAPSE"%string ->
   targetHealth (onPhaseChanged data (onStatsUpdated stats this)) = 0).
Proof.
  unfold onPhaseChanged. repeat split.
  - destruct (String.eqb _ _); reflexivity.
  - intros Hne. apply String.eqb_neq in Hne. now rewrite Hne.
  - intros ->. reflexivity.
Qed.

Lemma between_towards (c t x y : Q) :
  between c t x -> between x t y -> between c t y.
Proof.
  unfold between. intros (H1 & H2) (H3 & H4).
  destruct (Qlt_le_dec t c) as [H|H].
  - rewrite (Q.min_r c t) in * by lra. rewrite (Q.max_l c t) in * by lra.
    assert (Hx : t <= x) by exact H1.
    rewrite (Q.min_r x t) in H3 by exact Hx. rewrite (Q.max_l x t) in H4 by exact Hx.
    split; lra.
  - rewrite (Q.min_l c t) in * by lra. rewrite (Q.max_r c t) in * by lra.
    assert (Hx : x <= t) by exact H2.
    rewrite (Q.min_l x t) in H3 by exact Hx. rewrite (Q.max_r x t) in H4 by exact Hx.
    split; lra.
Qed.

Lemma between_start (c t : Q) : between c t c.
Proof. unfold between. split; [apply Q.le_min_l | apply Q.le_max_l]. Qed.

(** X22: frames move the health towards the target and never past it: the
    target stays as it is, and after any number of further frames the
    current health lies between what it was and the target, whatever the
    times of the frames are. *)
Theorem health_approaches_target (earlier later : list Q) (this : t) :
  targetHealth (frames (earlier ++ later) this) = targetHealth this /\
  between (currentHealth (frames earlier this)) (targetHealth this)
          (currentHealth (frames (earlier ++ later) this)).
Proof.
  assert (Hframe : forall time s,
            targetHealth (update time s) = targetHealth s /\
            between (currentHealth s) (targetHealth s) (currentHealth (update time s))).
  { intros time s. unfold update. destruct (material s); simpl.
    - split; [reflexivity|]. apply lerp_between; discriminate.
    - split; [reflexivity | apply between_start]. }
  assert (Hframes : forall times s,
            targetHealth (frames times s) = targetHealth s /\
            between (currentHealth s) (targetHealth s) (currentHealth (frames times s))).
  { induction times as [|time times IH]; intros s.
    - split; [reflexivity | apply between_start].
    - change (frames (time :: times) s) with (frames times (update time s)).
      destruct (Hframe time s) as (Ht & Hb). destruct (IH (update time s)) as (Ht' & Hb').
      rewrite Ht in Ht', Hb'. split; [exact Ht'|].
      exact (between_towards _ _ _ _ Hb Hb'). }
  unfold frames at 1 3. rewrite fold_left_app. fold (frames earlier this).
  fold (frames later (frames earlier this)).
  destruct (Hframes earlier this) as (Ht & _).
  destruct (Hframes later (frames earlier this)) as (Ht' & Hb').
  rewrite Ht in Ht', Hb'. split; [exact Ht' | exact Hb'].
Qed.

(** After a collapse the health of fresh water sinks, and goes on sinking. *)
Example health_after_collapse :
  let collapsed := onPhaseChanged {| phaseId := "COLLAPSE" |} fresh in
  currentHealth (frames [16; 33] collapsed) < 1 /\
  currentHealth (frames [16; 33; 50] collapsed) < currentHealth (frames [16; 33] collapsed) /\
  0 < currentHealth (frames [16; 33; 50] collapsed).
Proof. vm_compute. repeat split; reflexivity. Qed.

Lemma lerpColors_within (lo hi : Color.t) (f : Q) :
  0 <= f -> f <= 1 -> Color.within lo hi (Color.lerpColors lo hi f).
Proof.
  intros H0 H1. unfold Color.within, Color.lerpColors. simpl.
  repeat split; apply lerp_between; assumption.
Qed.

(** X23: after a frame of an initialised water whose health values are
    fractions, each of the three colours handed to the shader is the mix of
    the dead and the healthy colour at the new health, and so every channel
    of it lies between the dead and the healthy channel. *)
Theorem colours_between_palettes (time : Q) (this : t) m :
  material this = Some m -> healthInRange this ->
  let this' := update time this in
  let mix := fun pick : Palette -> Color.t =>
    Color.lerpColors (pick (colorsDead this)) (pick (colorsHealthy this))
                     (currentHealth this') in
  uniformColors this' =
    {| deep := mix deep; shallow := mix shallow;
       foam := mix foam |} /\
  paletteWithin (colorsDead this) (colorsHealthy this)
                      (uniformColors this').
Proof.
  intros Hm Hr this' mix.
  assert (Hr' : healthInRange this') by exact (update_keeps_fraction time this Hr).
  destruct Hr' as ((H0 & H1) & _).
  destruct (water_update_initialised time this m Hm) as (_ & _ & _ & _ & _ & Hu).
  fold this' in Hu.
  split; [exact Hu|]. rewrite Hu. unfold paletteWithin. simpl.
  repeat split; apply lerp_between; assumption.
Qed.

Lemma colours_between_palettes_witness :
  paletteWithin deadPalette healthyPalette
    (uniformColors
       (update 16 (onPhaseChanged {| phaseId := "COLLAPSE" |} fresh))).
Proof.
  exact (proj2 (colours_between_palettes 16
                  (onPhaseChanged {| phaseId := "COLLAPSE" |} fresh) _
                  eq_refl ltac:(repeat split; discriminate))).
Defined.

(** X24: water at rest keeps its colours: with current and target health
    both 1 a frame leaves the health at 1 and hands the healthy palette to
    the shader, and with both 0 it hands over the dead palette. *)
Theorem water_at_rest (time : Q) (this : t) m :
  material this = Some m ->
  (currentHealth this == 1 -> targetHealth this == 1 ->
   currentHealth (update time this) == 1 /\
   paletteEquiv (uniformColors (update time this))
                      (colorsHealthy this)) /\
  (currentHealth this == 0 -> targetHealth this == 0 ->
   currentHealth (update time this) == 0 /\
   paletteEquiv (uniformColors (update time this))
                      (colorsDead this)).
Proof.
  intros Hm.
  destruct (water_update_initialised time this m Hm) as (_ & _ & _ & _ & Hc & Hu).
  cbv zeta in Hc, Hu.
  split; intros Hc1 Ht1.
  - assert (H : currentHealth (update time this) == 1)
      by (rewrite Hc, Hc1, Ht1; ring).
    split; [exact H|]. rewrite Hu.
    unfold paletteEquiv, Color.equiv, updateColors, Color.lerpColors. simpl.
    rewrite H. repeat split; ring.
  - assert (H : currentHealth (update time this) == 0)
      by (rewrite Hc, Hc1, Ht1; ring).
    split; [exact H|]. rewrite Hu.
    unfold paletteEquiv, Color.equiv, updateColors, Color.lerpColors. simpl.
    rewrite H. repeat split; ring.
Qed.

Lemma water_at_rest_witness :
  paletteEquiv (uniformColors (update 16 fresh)) healthyPalette.
Proof.
  exact (proj2 (proj1 (water_at_rest 16 fresh _ eq_refl)
                  ltac:(reflexivity) ltac:(reflexivity))).
Defined.

End WaterFacts.
